(** * Equal-angle cevian concurrency: the counting engine and its b-file writer

    A shallow embedding of [dangle_equal_angle_200.py] and [test_rule.py].

    The Python code computes with [float] and calls [math.tan] and
    [math.atan].  The embedding keeps the control flow, the integer
    arithmetic, the list updates and the raised exceptions as the source
    has them, and reads every numeric operation through the interface
    [PyFloat].  The instance of the program is [binary64]: IEEE 754
    double precision from the primitive floats, with the two libm
    functions as arguments, since the platform's libm is not part of the
    source.  Statements about the loops hold for every instance;
    statements about the values of the table are proved for [binary64],
    from the specification of the operations on doubles.  A second
    instance, [reals], runs the same code over the real numbers of the
    standard library: it is the arithmetic that the docstrings describe,
    not the one the program computes with. *)

From Stdlib Require Import ZArith List Sorted Lia Floats Reals Lra.
From Stdlib Require Import Ascii String DecimalString DecimalPos DecimalZ.
From stdpp Require Import base option list strings gmap sorting.

Set Default Proof Using "Type".
Local Open Scope Z_scope.

(** ** Exceptions and results *)

(** The exceptions the modelled code can raise.  [OSError] stands for the
    class and its subclasses ([FileNotFoundError], [PermissionError], ...),
    which is what [open] raises for a path it cannot open. *)
Inductive exn : Set :=
| ZeroDivisionError
| ValueError
| OverflowError
| IndexError
| TypeError
| OSError
| SystemExit.

(** The outcome of running a piece of Python: a value or a raised exception. *)
Inductive result (A : Type) : Type :=
| Ok (a : A)
| Raise (e : exn).
Arguments Ok {A} a.
Arguments Raise {A} e.

#[global] Instance result_ret : MRet result := @Ok.
#[global] Instance result_bind : MBind result :=
  fun A B f m => match m with Ok a => f a | Raise e => Raise e end.
#[global] Instance result_fmap : FMap result :=
  fun A B f m => match m with Ok a => Ok (f a) | Raise e => Raise e end.

(** ** The numeric interface *)

(** What the source asks of Python's [float] and of the [math] module.
    Operations that can raise return a [result]. *)
Class PyFloat (F : Type) : Type := {
  (** the literals [0.0], [1.0], [2.0], [3.0] *)
  f0 : F; f1 : F; f2 : F; f3 : F;
  (** the literal [1e-12], the default of [tol] *)
  f_tol : F;
  (** [math.pi] *)
  fpi : F;
  (** [math.sqrt], used once, at the literal [3.0] *)
  fsqrt : F -> F;
  (** the conversion of an [int] operand in a mixed [int]/[float] operation *)
  of_int : Z -> result F;
  fadd : F -> F -> F;
  fsub : F -> F -> F;
  fmul : F -> F -> F;
  (** [x / y], raising [ZeroDivisionError] when [y] is zero *)
  fdiv : F -> F -> result F;
  (** [abs(x)] *)
  fabs : F -> F;
  (** [x <= y] *)
  fle : F -> F -> bool;
  (** [math.tan], which raises [ValueError] outside its domain *)
  ftan : F -> result F;
  (** [math.atan] *)
  fatan : F -> F;
  (** [int(round(x))]: nearest integer, ties to even; raises on NaN and
      on infinities *)
  fround : F -> result Z
}.

(** ** Loops and lists *)

(** [range(lo, hi)] *)
Definition range (lo hi : Z) : list Z :=
  map (fun d => lo + Z.of_nat d) (seq 0 (Z.to_nat (hi - lo))).

(** [for x in xs: s = body(x, s)], stopping at the first exception. *)
Fixpoint for_each {S : Type} (xs : list Z) (body : Z -> S -> result S) (s : S)
  : result S :=
  match xs with
  | [] => Ok s
  | x :: xs' => s' ← body x s; for_each xs' body s'
  end.

(** [l[k]] on a Python list: a negative index counts from the end, an index
    out of range raises [IndexError]. *)
Definition getitem {A : Type} (l : list A) (k : Z) : result A :=
  let len := Z.of_nat (length l) in
  let k' := if k <? 0 then k + len else k in
  if (k' <? 0) || (len <=? k') then Raise IndexError
  else match l !! Z.to_nat k' with
       | Some a => Ok a
       | None => Raise IndexError
       end.

(** [l[k] = v] on a Python list, with the same index rules. *)
Definition setitem {A : Type} (l : list A) (k : Z) (v : A) : result (list A) :=
  let len := Z.of_nat (length l) in
  let k' := if k <? 0 then k + len else k in
  if (k' <? 0) || (len <=? k') then Raise IndexError
  else Ok (<[Z.to_nat k' := v]> l).

(** ** The engine *)

Section Engine.
Context {F : Type} `{PyFloat F}.

(** [SQRT3 = math.sqrt(3.0)] *)
Definition SQRT3 : F := fsqrt f3.

(** [precompute_R]: the pair [(theta, R)], with [theta = None] and the
    empty table for [n <= 0]. *)
Definition precompute_R (n : Z) : result (option F * list F) :=
  if n <=? 0 then Ok (None, [])
  else
    n1 ← of_int (n + 1);
    theta ← fdiv fpi (fmul f3 n1);
    R ← for_each (range 1 (n + 1))
          (fun k R =>
             kf ← of_int k;
             t ← ftan (fmul kf theta);
             q ← fdiv (fmul f2 t) (fsub SQRT3 t);
             setitem R k q)
          (replicate (Z.to_nat (n + 1)) f0);
    Ok (Some theta, R).

(** [x / theta] where [theta] is the first component returned by
    [precompute_R]; dividing by [None] is a [TypeError]. *)
Definition div_theta (x : F) (theta : option F) : result F :=
  match theta with
  | Some th => fdiv x th
  | None => Raise TypeError
  end.

(** [d_angle_fast] *)
Definition d_angle_fast (n : Z) (tol : F) : result Z :=
  if n <=? 0 then Ok 0
  else
    '(theta, R) ← precompute_R n;
    for_each (range 1 (n + 1))
      (fun i count =>
         Ri ← getitem R i;
         for_each (range 1 (n + 1))
           (fun j count =>
              Rj ← getitem R j;
              r_target ← fdiv f1 (fmul Ri Rj);
              if fle r_target f0 then Ok count
              else
                t ← fdiv (fmul r_target SQRT3) (fadd f2 r_target);
                if fle t f0 then Ok count
                else
                  let x := fatan t in
                  q ← div_theta x theta;
                  k ← fround q;
                  if (1 <=? k) && (k <=? n) then
                    Rj' ← getitem R j;
                    Rk ← getitem R k;
                    let prod := fmul (fmul Ri Rj') Rk in
                    if fle (fabs (fsub prod f1)) tol then Ok (count + 1)
                    else Ok count
                  else Ok count)
           count)
      0.

(** [list_solutions] *)
Definition list_solutions (n : Z) (tol : F) : result (list (Z * Z * Z)) :=
  if n <=? 0 then Ok []
  else
    '(theta, R) ← precompute_R n;
    for_each (range 1 (n + 1))
      (fun i sols =>
         Ri ← getitem R i;
         for_each (range 1 (n + 1))
           (fun j sols =>
              Rj ← getitem R j;
              r_target ← fdiv f1 (fmul Ri Rj);
              if fle r_target f0 then Ok sols
              else
                t ← fdiv (fmul r_target SQRT3) (fadd f2 r_target);
                if fle t f0 then Ok sols
                else
                  let x := fatan t in
                  q ← div_theta x theta;
                  k ← fround q;
                  if (1 <=? k) && (k <=? n) then
                    Rj' ← getitem R j;
                    Rk ← getitem R k;
                    let prod := fmul (fmul Ri Rj') Rk in
                    if fle (fabs (fsub prod f1)) tol
                    then Ok (sols ++ [(i, j, k)])
                    else Ok sols
                  else Ok sols)
           sols)
      [].
End Engine.

(** [a_rule]; Python's [%] with a positive modulus is [Z.modulo]. *)
Definition a_rule (n : Z) : Z :=
  if n mod 2 =? 0 then 0
  else (3 * n - 2) + (if n mod 10 =? 9 then 12 else 0).

(** ** IEEE 754 double precision *)

Module Binary64.
Import PrimFloat.

(** The nearest integer to [m * 2^e], ties to even. *)
Definition round_half_even (m : positive) (e : Z) : Z :=
  if 0 <=? e then Z.pos m * 2 ^ e
  else
    let d := 2 ^ (- e) in
    let q := Z.pos m / d in
    let r := Z.pos m mod d in
    match 2 * r ?= d with
    | Lt => q
    | Gt => q + 1
    | Eq => if Z.even q then q else q + 1
    end.

(** [int(round(x))] on a double. *)
Definition b64_round (x : float) : result Z :=
  match Prim2SF x with
  | S754_zero _ => Ok 0
  | S754_infinity _ => Raise OverflowError
  | S754_nan => Raise ValueError
  | S754_finite s m e =>
      Ok (if s then - round_half_even m e else round_half_even m e)
  end.

(** The double nearest to an integer (ties to even); [OverflowError]
    when the integer is too large for a double. *)
Definition b64_of_int (n : Z) : result float :=
  let x := SF2Prim (binary_normalize prec emax n 0 false) in
  if is_infinity x then Raise OverflowError else Ok x.

(** Float division as Python does it. *)
Definition b64_div (x y : float) : result float :=
  if (y =? zero)%float then Raise ZeroDivisionError else Ok (x / y)%float.

(** [math.pi] *)
Definition pi : float := 0x1.921fb54442d18p+1%float.

(** The literal [1e-12]: the double nearest to it. *)
Definition tol_default : float := 0x1.19799812dea11p-40%float.

(** The instance, for a given [math.tan] and [math.atan]. *)
Definition binary64 (tan : float -> result float) (atan : float -> float)
  : PyFloat float :=
  {| f0 := zero; f1 := one; f2 := two; f3 := 3%float;
     f_tol := tol_default;
     fpi := pi;
     fsqrt := sqrt;
     of_int := b64_of_int;
     fadd := add; fsub := sub; fmul := mul;
     fdiv := b64_div;
     fabs := abs;
     fle := leb;
     ftan := tan;
     fatan := atan;
     fround := b64_round |}.

(** *** A sample libm, to run the model

    [math.tan] and [math.atan] come from the platform's C library and are
    not part of the source.  The two functions below are truncated series
    evaluated in double precision; they stand for a libm when the model is
    run on sample inputs.  No theorem about the engine depends on them. *)

(** [1 - x2/(k(k+1)) * (1 - x2/((k+2)(k+3)) * (1 - ...))]: the series of
    the cosine from [k = 1] and, up to a factor [x], of the sine from
    [k = 2], at [x2 = x * x]. *)
Fixpoint alt_series (fuel : nat) (k : float) (x2 : float) : float :=
  match fuel with
  | O => one
  | S fuel' =>
      (one - x2 / (k * (k + one)) * alt_series fuel' (k + two) x2)%float
  end.

(** Sine, cosine and tangent by their series. *)
Definition sample_sin (x : float) : float :=
  (x * alt_series 14 2 (x * x))%float.
Definition sample_cos (x : float) : float :=
  alt_series 14 1 (x * x)%float.

Definition sample_tan (x : float) : result float :=
  if is_infinity x then Raise ValueError
  else Ok (sample_sin x / sample_cos x)%float.

(** [atan x = 2 * atan (x / (1 + sqrt (1 + x^2)))] *)
Definition halve_angle (x : float) : float :=
  (x / (one + sqrt (one + x * x)))%float.

(** [1/k - x2 * (1/(k+2) - x2 * ...)] *)
Fixpoint atan_series (fuel : nat) (k : float) (x2 : float) : float :=
  match fuel with
  | O => (one / k)%float
  | S fuel' => (one / k - x2 * atan_series fuel' (k + two) x2)%float
  end.

(** Arc tangent: three halvings of the angle, then the series. *)
Definition sample_atan (x : float) : float :=
  let y := halve_angle (halve_angle (halve_angle x)) in
  (8 * (y * atan_series 14 1 (y * y)))%float.

(** Double precision with the sample libm. *)
Definition sample : PyFloat float := binary64 sample_tan sample_atan.
End Binary64.

(** ** Exact real arithmetic

    The numeric interface over the real numbers: nothing rounds, every
    [int] converts, and [tan] and [atan] are the functions of analysis.
    This is the arithmetic of the docstrings, not of the program; what
    holds of the program in double precision is proved for [binary64]. *)

Module Exact.
Local Open Scope R_scope.

(** Division, undefined at a zero divisor. *)
Definition ex_div (x y : R) : result R :=
  if Req_dec_T y 0 then Raise ZeroDivisionError else Ok (x / y).

(** The comparison [x <= y]. *)
Definition ex_le (x y : R) : bool :=
  if Rle_dec x y then true else false.

(** The tangent is undefined where the cosine vanishes. *)
Definition ex_tan (x : R) : result R :=
  if Req_dec_T (cos x) 0 then Raise ValueError else Ok (tan x).

(** Nearest integer, ties to even. *)
Definition ex_round (x : R) : result Z :=
  let q := Int_part x in
  let r := frac_part x in
  if Rlt_dec r (1 / 2) then Ok q
  else if Rlt_dec (1 / 2) r then Ok (q + 1)%Z
  else Ok (if Z.even q then q else q + 1)%Z.

(** [theta = pi/(3*(n+1))] and [R(x) = 2*tan(x)/(sqrt(3) - tan(x))], as the
    docstring of [d_angle_fast] writes them. *)
Definition angle (n : Z) : R := PI / (3 * IZR (n + 1)).
Definition ratio (x : R) : R := 2 * tan x / (sqrt 3 - tan x).

#[export] Instance reals : PyFloat R :=
  {| f0 := 0; f1 := 1; f2 := 2; f3 := 3;
     f_tol := 1 / 10 ^ 12;
     fpi := PI;
     fsqrt := sqrt;
     of_int := fun n => Ok (IZR n);
     fadd := Rplus; fsub := Rminus; fmul := Rmult;
     fdiv := ex_div;
     fabs := Rabs;
     fle := ex_le;
     ftan := ex_tan;
     fatan := atan;
     fround := ex_round |}.
End Exact.

(** ** The b-file *)

(** [str(z)] for an [int]: decimal digits, with a leading minus sign for a
    negative number. *)
Definition str (z : Z) : string := NilZero.string_of_int (Z.to_int z).

(** [enumerate(l, start)] *)
Fixpoint enumerate {A : Type} (l : list A) (start : Z) : list (Z * A) :=
  match l with
  | [] => []
  | a :: l' => (start, a) :: enumerate l' (start + 1)
  end.

(** The characters [\n] and space. *)
Definition newline : ascii := ascii_of_nat 10.
Definition space : ascii := ascii_of_nat 32.

(** The text files, by path. *)
Abbreviation files := (gmap string string).

(** Does the character occur in the string? *)
Fixpoint occurs (c : ascii) (s : string) : bool :=
  match s with
  | EmptyString => false
  | String a s' => Ascii.eqb a c || occurs c s'
  end.

(** The platform of a run: the paths at which it lets a program open a
    file and write it.  A path in a directory that does not exist, one
    that the user may not write, a directory, or a device that takes no
    data is not among them. *)
Class Platform : Type := { writable : string -> bool }.

(** Can the file at [path] be opened and written?  Python refuses a path
    that holds a NUL character before it asks the platform, and no
    platform opens the empty path. *)
Definition can_open `{Platform} (path : string) : bool :=
  negb (occurs "000"%char path) && negb (String.eqb path "")
  && writable path.

(** What is raised for such a path: [ValueError] for an embedded NUL
    character, [OSError] otherwise. *)
Definition open_error (path : string) : exn :=
  if occurs "000"%char path then ValueError else OSError.

(** [open(path, "w")]: the file is created or truncated; for a path that
    cannot be opened and written the failure is raised here, and no file
    changes. *)
Definition open_w `{Platform} (path : string) (fs : files) : result files :=
  if can_open path then Ok (<[path := ""]> fs)
  else Raise (open_error path).

(** [f.write(s)] on the file opened at [path]: [s] goes at the end. *)
Definition write (path : string) (s : string) (fs : files) : files :=
  alter (fun text => text +:+ s) path fs.

(** The line [f"{n} {v}\n"] *)
Definition bfile_line (n v : Z) : string :=
  str n +:+ String space (str v +:+ String newline "").

(** [write_bfile]: the files after the call, or the exception of [open]. *)
Definition write_bfile `{Platform} (vals : list Z) (path : string)
           (fs : files) : result files :=
  f ← open_w path fs;
  Ok (fold_left (fun fs '(n, v) => write path (bfile_line n v) fs)
                (enumerate vals 1) f).

(** A sample platform, to run the model: there is no directory [/missing],
    every other path can be written. *)
Definition sample_platform : Platform :=
  {| writable := fun path => negb (String.prefix "/missing/" path) |}.

(** *** Reading a b-file back

    The repository has no reader.  The one below follows the b-file
    convention: every line ends with a newline and holds an index and a
    value in decimal, separated by one space. *)

(** The lines of a text, without their newlines; [None] when the text does
    not end with a newline. *)
Fixpoint lines_from (cur : string) (s : string) : option (list string) :=
  match s with
  | EmptyString => match cur with EmptyString => Some [] | _ => None end
  | String c s' =>
      if Ascii.eqb c newline then cons cur <$> lines_from "" s'
      else lines_from (cur +:+ String c "") s'
  end.
Definition split_lines (s : string) : option (list string) := lines_from "" s.

(** The two fields of a line, around its first space. *)
Fixpoint fields_from (cur : string) (s : string) : option (string * string) :=
  match s with
  | EmptyString => None
  | String c s' =>
      if Ascii.eqb c space then Some (cur, s')
      else fields_from (cur +:+ String c "") s'
  end.

(** A decimal integer. *)
Definition parse_int (s : string) : option Z :=
  Z.of_int <$> NilZero.int_of_string s.

(** A line without its newline: the index and the value. *)
Definition parse_line (s : string) : option (Z * Z) :=
  '(a, b) ← fields_from "" s;
  n ← parse_int a;
  v ← parse_int b;
  Some (n, v).

(** The (index, value) pairs of a b-file. *)
Definition read_bfile (text : string) : option (list (Z * Z)) :=
  ls ← split_lines text;
  mapM parse_line ls.

(** ** The drivers *)

Section Drivers.
Context {F : Type} `{PyFloat F}.

(** The table loop of [main] in [dangle_equal_angle_200.py]: the list
    [vals] of the counts for n = 1 .. max_n.  Printing is left out. *)
Definition main_table (max_n : Z) (tol : F) : result (list Z) :=
  for_each (range 1 (max_n + 1))
    (fun n vals =>
       d ← d_angle_fast n tol;
       Ok (vals ++ [d]))
    [].

(** [main] of [test_rule.py]: the list [bad] of the mismatches for
    n = 1 .. 200, then [SystemExit(1)] when it is not empty. *)
Definition test_rule_main : result unit :=
  bad ← for_each (range 1 201)
          (fun n bad =>
             d ← d_angle_fast n f_tol;
             let r := a_rule n in
             if negb (d =? r) then Ok (bad ++ [(n, d, r)]) else Ok bad)
          [];
  match bad with
  | [] => Ok tt
  | _ :: _ => Raise SystemExit
  end.
End Drivers.

(** ** Printing and the command line *)

(** What a run sees and changes: the lines printed so far, one string for
    each call of [print], and the files. *)
Record world : Type := World { stdout : list string; disk : files }.

(** A step of a run: it changes the world and returns a value or raises.
    What was printed before an exception stays printed. *)
Definition io (A : Type) : Type := world -> world * result A.

#[global] Instance io_ret : MRet io := fun A a w => (w, Ok a).
#[global] Instance io_bind : MBind io :=
  fun A B f m w =>
    match m w with
    | (w', Ok a) => f a w'
    | (w', Raise e) => (w', Raise e)
    end.

(** [print(s)] *)
Definition print (s : string) : io unit :=
  fun w => (World (stdout w ++ [s]) (disk w), Ok tt).

(** A computation that touches neither the output nor the files. *)
Definition pure {A : Type} (r : result A) : io A := fun w => (w, r).

(** A call of [write_bfile]: the files change when it returns; when it
    raises, nothing has changed. *)
Definition do_write_bfile `{Platform} (vals : list Z) (path : string)
  : io unit :=
  fun w =>
    match write_bfile vals path (disk w) with
    | Ok fs => (World (stdout w) fs, Ok tt)
    | Raise e => (w, Raise e)
    end.

(** [for x in xs: s = body(x, s)] in a run. *)
Fixpoint io_for_each {A S : Type} (xs : list A) (body : A -> S -> io S) (s : S)
  : io S :=
  match xs with
  | [] => mret s
  | x :: xs' => s' ← body x s; io_for_each xs' body s'
  end.

(** [if c: body] *)
Definition when (c : bool) (body : io unit) : io unit :=
  if c then body else mret tt.

(** [f"{z:<w>d}"]: the decimal of [z], with spaces before it up to the
    width [w]. *)
Definition pad (w : nat) (z : Z) : string :=
  let s := str z in
  String.concat "" (replicate (w - String.length s) " ") +:+ s.

(** [str(t)] for a tuple of three [int]. *)
Definition show_triple (t : Z * Z * Z) : string :=
  let '(i, j, k) := t in
  "(" +:+ str i +:+ ", " +:+ str j +:+ ", " +:+ str k +:+ ")".

(** The order of Python on tuples of three [int]: lexicographic. *)
Definition triple_le (t u : Z * Z * Z) : Prop :=
  t.1.1 < u.1.1 \/
  (t.1.1 = u.1.1 /\ (t.1.2 < u.1.2 \/ (t.1.2 = u.1.2 /\ t.2 <= u.2))).

#[global] Instance triple_le_dec : RelDecision triple_le.
Proof. intros t u. unfold triple_le. apply _. Defined.

(** [l.sort()] on such tuples: the sorted permutation of the list. *)
Definition sort_triples (l : list (Z * Z * Z)) : list (Z * Z * Z) :=
  merge_sort triple_le l.

(** The options of [main], as [parse_args] returns them. *)
Record args (F : Type) : Type := Args {
  max_n : Z;
  tol : F;
  csv : bool;
  oeis_line : bool;
  no_table : bool;
  list_triples : option Z;
  bfile : option string
}.
Arguments Args {F}.
Arguments max_n {F}.
Arguments tol {F}.
Arguments csv {F}.
Arguments oeis_line {F}.
Arguments no_table {F}.
Arguments list_triples {F}.
Arguments bfile {F}.

(** The default options: [--max-n 200 --tol 1e-12] and nothing else. *)
Definition default_args {F : Type} `{PyFloat F} : args F :=
  Args 200 f_tol false false false None None.

(** The row of the table for n, the count d and the rule r. *)
Definition table_row (n d r : Z) : string :=
  pad 3 n +:+ ": " +:+ pad 12 d +:+ "  |  " +:+ pad 6 r +:+ "   " +:+
  (if d =? r then "OK" else "DIFF").

(** The line that [test_rule.py] prints for a mismatch. *)
Definition diff_line (b : Z * Z * Z) : string :=
  let '(n, d, r) := b in
  "DIFF at n=" +:+ str n +:+ ": fast=" +:+ str d +:+ ", rule=" +:+ str r.

Section CommandLine.
Context {F : Type} `{PyFloat F} `{Platform}.

(** [str(x)] for a [float], as an f-string prints [args.tol]; Python's
    shortest-digits conversion is not modelled. *)
Variable show_float : F -> string.

(** The block of [main] under [--list-triples N]. *)
Definition main_list_triples (a : args F) (N : Z) : io unit :=
  sols ← pure (list_solutions N (tol a));
  print (String newline
           ("Solution triples for n=" +:+ str N +:+ " (tol=" +:+
            show_float (tol a) +:+ "): count = " +:+
            str (Z.of_nat (length sols))));;
  let sols := sort_triples sols in
  io_for_each sols (fun t (_ : unit) => print (show_triple t)) tt;;
  print ("Rule a_rule(" +:+ str N +:+ ") = " +:+ str (a_rule N)).

(** [main] of [dangle_equal_angle_200.py], from the parsed options on. *)
Definition main (a : args F) : io unit :=
  when (negb (no_table a)) (print "n :  d_angle_fast  |  a_rule   check");;
  vals ← io_for_each (range 1 (max_n a + 1))
           (fun n vals =>
              d ← pure (d_angle_fast n (tol a));
              let vals := vals ++ [d] in
              when (negb (no_table a))
                   (let r := a_rule n in print (table_row n d r));;
              mret vals)
           [];
  when (csv a)
       (io_for_each (enumerate vals 1)
          (fun '(n, d) (_ : unit) => print (str n +:+ "," +:+ str d)) tt);;
  when (oeis_line a)
       (print "OEIS data (offset 1):";;
        print (String.concat ", " (str <$> vals)));;
  match list_triples a with
  | Some N => main_list_triples a N
  | None => mret tt
  end;;
  match bfile a with
  | Some path =>
      when (negb (String.eqb path ""))
           (do_write_bfile vals path;;
            print ("Wrote b-file: " +:+ path))
  | None => mret tt
  end.

(** [main] of [test_rule.py]. *)
Definition test_rule_io : io unit :=
  bad ← io_for_each (range 1 201)
          (fun n bad =>
             d ← pure (d_angle_fast n f_tol);
             let r := a_rule n in
             if negb (d =? r) then mret (bad ++ [(n, d, r)]) else mret bad)
          [];
  match bad with
  | [] => print "OK: d_angle_fast(n) == a_rule(n) for n=1..200"
  | _ :: _ =>
      io_for_each bad (fun b (_ : unit) => print (diff_line b)) tt;;
      pure (Raise SystemExit)
  end.
End CommandLine.

(** ** Vocabulary of the statements *)

(** Two runs agree: the same exception, or values related by [P]. *)
Definition agree {A B : Type} (P : A -> B -> Prop) (x : result A) (y : result B)
  : Prop :=
  match x, y with
  | Ok a, Ok b => P a b
  | Raise e, Raise e' => e = e'
  | _, _ => False
  end.

(** The order of discovery: pairs (i, j) compared first on i, then on j. *)
Definition lex_lt (p q : Z * Z) : Prop :=
  p.1 < q.1 \/ (p.1 = q.1 /\ p.2 < q.2).

(** The pair (i, j) of a triple (i, j, k). *)
Definition pair_of (t : Z * Z * Z) : Z * Z := (t.1.1, t.1.2).

(** A triple of indices in [1, n] whose product of table entries, computed
    as the code computes it, passes the tolerance test. *)
Definition verified {F : Type} `{PyFloat F} (n : Z) (tol : F) (R : list F)
           (t : Z * Z * Z) : Prop :=
  let '(i, j, k) := t in
  (1 <= i <= n /\ 1 <= j <= n /\ 1 <= k <= n) /\
  exists Ri Rj Rk,
    getitem R i = Ok Ri /\ getitem R j = Ok Rj /\ getitem R k = Ok Rk /\
    fle (fabs (fsub (fmul (fmul Ri Rj) Rk) f1)) tol = true.

(** The end of a line. *)
Definition eol : string := String newline "".




(** The body of the inner loop of [list_solutions], as the source has it:
    what the iteration at [j] does to the list, for the [i], [Ri], table
    and angle of the enclosing iteration. *)
Abbreviation list_solutions_pair theta R n tol i Ri :=
  (fun (j : Z) (sols : list (Z * Z * Z)) =>
     Rj ← getitem R j;
     r_target ← fdiv f1 (fmul Ri Rj);
     if fle r_target f0 then Ok sols
     else
       t ← fdiv (fmul r_target SQRT3) (fadd f2 r_target);
       if fle t f0 then Ok sols
       else
         let x := fatan t in
         q ← div_theta x theta;
         k ← fround q;
         if (1 <=? k) && (k <=? n) then
           Rj' ← getitem R j;
           Rk ← getitem R k;
           let prod := fmul (fmul Ri Rj') Rk in
           if fle (fabs (fsub prod f1)) tol
           then Ok (sols ++ [(i, j, k)])
           else Ok sols
         else Ok sols).

(** The mismatch that [test_rule.py] records at n, if any. *)
Definition mismatch {F : Type} `{PyFloat F} (n : Z) : list (Z * Z * Z) :=
  match d_angle_fast n f_tol with
  | Ok d => if d =? a_rule n then [] else [(n, d, a_rule n)]
  | Raise _ => []
  end.

(** * Properties *)

(** ** Results *)

Lemma agree_bind {A B A' B' : Type} (P : A -> B -> Prop) (Q : A' -> B' -> Prop)
      (x : result A) (y : result B) (f : A -> result A') (g : B -> result B') :
  agree P x y ->
  (forall a b, P a b -> agree Q (f a) (g b)) ->
  agree Q (x ≫= f) (y ≫= g).
Proof.
  destruct x as [a|e], y as [b|e']; simpl; try contradiction; auto.
Qed.

Lemma agree_bind_same {A A' B' : Type} (Q : A' -> B' -> Prop)
      (x : result A) (f : A -> result A') (g : A -> result B') :
  (forall a, x = Ok a -> agree Q (f a) (g a)) ->
  agree Q (x ≫= f) (x ≫= g).
Proof.
  destruct x as [a|e]; simpl; auto.
Qed.

Lemma agree_fmap {A B : Type} (f : B -> A) (x : result A) (y : result B) :
  agree (fun a b => a = f b) x y -> x = f <$> y.
Proof.
  destruct x, y; simpl; intros; try contradiction; congruence.
Qed.

Lemma bind_ret {A B : Type} (a : A) (f : A -> result B) : Ok a ≫= f = f a.
Proof. reflexivity. Qed.

Lemma bind_Ok {A B : Type} (x : result A) (f : A -> result B) (b : B) :
  x ≫= f = Ok b -> exists a, x = Ok a /\ f a = Ok b.
Proof.
  destruct x as [a|e]; simpl; [eauto | discriminate].
Qed.

(** Splits a hypothesis [H : ... = Ok _] along the binds and tests of the
    code it comes from. *)
Ltac run H :=
  lazymatch type of H with
  | Ok _ = Ok _ => injection H as H; try subst
  | Raise _ = Ok _ => discriminate H
  | mbind _ _ = Ok _ =>
      let a := fresh "v" in
      let E := fresh "E" in
      apply bind_Ok in H; destruct H as (a & E & H); run H
  | (if ?b then _ else _) = Ok _ =>
      let E := fresh "E" in
      destruct b eqn:E; run H
  | (let '(_, _) := ?p in _) = Ok _ =>
      destruct p; run H
  | _ => idtac
  end.

(** ** Ranges and loops *)

Lemma range_nil lo hi : hi <= lo -> range lo hi = [].
Proof.
  intros Hle. unfold range. replace (Z.to_nat (hi - lo)) with O by lia.
  reflexivity.
Qed.

Lemma range_cons lo hi : lo < hi -> range lo hi = lo :: range (lo + 1) hi.
Proof.
  intros Hlt. unfold range.
  replace (Z.to_nat (hi - lo)) with (S (Z.to_nat (hi - (lo + 1)))) by lia.
  cbn [seq map]. f_equal; [lia|].
  rewrite <- seq_shift, map_map. apply map_ext. intros d. lia.
Qed.

Lemma range_length lo hi : Z.of_nat (length (range lo hi)) = Z.max 0 (hi - lo).
Proof. unfold range. rewrite length_map, length_seq. lia. Qed.

Lemma elem_of_range lo hi x : x ∈ range lo hi <-> lo <= x < hi.
Proof.
  unfold range. rewrite list_elem_of_fmap. split.
  - intros (d & -> & Hd). apply list_elem_of_In, in_seq in Hd. lia.
  - intros Hx. exists (Z.to_nat (x - lo)). split; [lia|].
    apply list_elem_of_In, in_seq. lia.
Qed.

(** The loop rule: an invariant [I x s], read "[s] is the state when the
    loop reaches [x]", carried by every iteration that does not raise. *)
Lemma for_range_inv {S : Type} (I : Z -> S -> Prop) (body : Z -> S -> result S)
      (lo hi : Z) (s s' : S) :
  lo <= hi ->
  I lo s ->
  (forall x t t', lo <= x < hi -> I x t -> body x t = Ok t' -> I (x + 1) t') ->
  for_each (range lo hi) body s = Ok s' ->
  I hi s'.
Proof.
  intros Hle. remember (Z.to_nat (hi - lo)) as m eqn:Hm.
  revert lo s Hle Hm. induction m as [|m IH]; intros lo s Hle Hm H0 Hstep Hrun.
  - assert (hi = lo) as -> by lia.
    rewrite range_nil in Hrun by lia. simpl in Hrun. congruence.
  - rewrite range_cons in Hrun by lia. cbn [for_each] in Hrun.
    apply bind_Ok in Hrun as (t & Hb & Hrun).
    apply (IH (lo + 1) t); try lia; auto.
    + apply (Hstep lo s t); auto. lia.
    + intros x u u' Hx. apply Hstep. lia.
Qed.

(** The loop rule for runs that cannot raise. *)
Lemma for_range_total {S : Type} (I : Z -> S -> Prop)
      (body : Z -> S -> result S) (lo hi : Z) (s : S) :
  lo <= hi ->
  I lo s ->
  (forall x t, lo <= x < hi -> I x t ->
               exists t', body x t = Ok t' /\ I (x + 1) t') ->
  exists s', for_each (range lo hi) body s = Ok s' /\ I hi s'.
Proof.
  intros Hle. remember (Z.to_nat (hi - lo)) as m eqn:Hm.
  revert lo s Hle Hm. induction m as [|m IH]; intros lo s Hle Hm H0 Hstep.
  - assert (hi = lo) as -> by lia.
    rewrite range_nil by lia. simpl. eauto.
  - rewrite range_cons by lia. cbn [for_each].
    destruct (Hstep lo s) as (t & Hb & Ht); [lia|auto|].
    rewrite Hb. simpl.
    apply (IH (lo + 1) t); try lia; auto.
    intros x u Hx. apply Hstep. lia.
Qed.

(** Two loops over the same list, step by step in agreement. *)
Lemma for_each_agree {S T : Type} (P : S -> T -> Prop) (xs : list Z)
      (b1 : Z -> S -> result S) (b2 : Z -> T -> result T) (s : S) (t : T) :
  P s t ->
  (forall x s t, P s t -> agree P (b1 x s) (b2 x t)) ->
  agree P (for_each xs b1 s) (for_each xs b2 t).
Proof.
  intros H0 Hstep. revert s t H0.
  induction xs as [|x xs IH]; intros s t H0; cbn [for_each].
  - exact H0.
  - eapply agree_bind; [apply Hstep, H0 | apply IH].
Qed.


(** ** The rule *)

(** C2: for every n >= 1, [a_rule n] is 0 when n is even, 3n - 2 when n is
    odd with n mod 10 <> 9, and 3n + 10 when n is odd with n mod 10 = 9;
    and [a_rule] is 1, 37, 0, 67 at 1, 9, 10, 19. *)
Theorem a_rule_cases (n : Z) :
  1 <= n ->
  (Z.even n = true -> a_rule n = 0) /\
  (Z.odd n = true -> n mod 10 <> 9 -> a_rule n = 3 * n - 2) /\
  (Z.odd n = true -> n mod 10 = 9 -> a_rule n = 3 * n + 10) /\
  a_rule 1 = 1 /\ a_rule 9 = 37 /\ a_rule 10 = 0 /\ a_rule 19 = 67.
Proof.
  intros _. unfold a_rule.
  repeat split; try reflexivity.
  - intros He. rewrite Zeven_mod in He.
    destruct (n mod 2 =? 0); [reflexivity | discriminate].
  - intros Ho Hm. rewrite Zodd_mod in Ho.
    apply Z.eqb_eq in Ho. rewrite Ho. simpl.
    destruct (Z.eqb_spec (n mod 10) 9); lia.
  - intros Ho Hm. rewrite Zodd_mod in Ho.
    apply Z.eqb_eq in Ho. rewrite Ho, Hm. simpl. lia.
Qed.

Lemma a_rule_cases_witness :
  1 <= 29 /\ Z.odd 29 = true /\ 29 mod 10 = 9 /\ a_rule 29 = 3 * 29 + 10.
Proof.
  assert (Hn : 1 <= 29) by lia.
  destruct (a_rule_cases 29 Hn) as (_ & _ & Hnine & _).
  split; [exact Hn|]. split; [reflexivity|]. split; [reflexivity|].
  apply Hnine; reflexivity.
Defined.

(** ** Counting and listing *)

Section EngineFacts.
Context {F : Type} `{PyFloat F}.

(** The count kept by [d_angle_fast] is the length of the list kept by
    [list_solutions], at every step and with the same exceptions. *)
Lemma count_is_length (n : Z) (tol : F) :
  agree (fun count sols => count = Z.of_nat (length sols))
        (d_angle_fast n tol) (list_solutions n tol).
Proof.
  unfold d_angle_fast, list_solutions.
  destruct (n <=? 0); [reflexivity|].
  apply agree_bind_same. intros [theta R] _.
  apply for_each_agree; [reflexivity|].
  intros i count sols Hrel.
  apply agree_bind_same. intros Ri _.
  apply for_each_agree; [exact Hrel|].
  clear count sols Hrel. intros j count sols Hrel.
  apply agree_bind_same. intros Rj _.
  apply agree_bind_same. intros r_target _.
  destruct (fle r_target f0); [exact Hrel|].
  apply agree_bind_same. intros t _.
  destruct (fle t f0); [exact Hrel|].
  apply agree_bind_same. intros q _.
  apply agree_bind_same. intros k _.
  destruct ((1 <=? k) && (k <=? n)); [|exact Hrel].
  apply agree_bind_same. intros Rj' _.
  apply agree_bind_same. intros Rk _.
  destruct (fle _ tol); [|exact Hrel].
  simpl. rewrite length_app. simpl. lia.
Qed.

(** C3: for every integer n and every tolerance, [d_angle_fast n tol] is
    the length of the list [list_solutions n tol]; the two run the same
    loop and raise the same exceptions. *)
Theorem d_angle_fast_is_length (n : Z) (tol : F) :
  d_angle_fast n tol
  = (fun sols => Z.of_nat (length sols)) <$> list_solutions n tol.
Proof.
  apply agree_fmap, count_is_length.
Qed.

(** C6: for n <= 0, [d_angle_fast] returns 0 and [list_solutions] the
    empty list, whatever the numeric operations do: the table is not
    consulted, and its own construction returns no angle and no entry. *)
Theorem degenerate_input (n : Z) (tol : F) :
  n <= 0 ->
  d_angle_fast n tol = Ok 0 /\
  list_solutions n tol = Ok [] /\
  precompute_R n = Ok (None, []).
Proof.
  intros Hn. apply Z.leb_le in Hn.
  unfold d_angle_fast, list_solutions, precompute_R.
  rewrite Hn. auto.
Qed.

Lemma StronglySorted_snoc {A : Type} (lt : A -> A -> Prop) (l : list A)
      (x : A) :
  StronglySorted lt l -> Forall (fun y => lt y x) l ->
  StronglySorted lt (l ++ [x]).
Proof.
  induction 1 as [|y l Hl IH Hy]; intros Hall; simpl.
  - repeat constructor.
  - apply Forall_cons in Hall as [Hyx Hall]. constructor; [auto|].
    apply Forall_app. split; [exact Hy | repeat constructor; exact Hyx].
Qed.

Lemma StronglySorted_irrefl_NoDup {A : Type} (lt : A -> A -> Prop)
      (l : list A) :
  (forall x, ~ lt x x) -> StronglySorted lt l -> NoDup l.
Proof.
  intros Hirr. induction 1 as [|y l Hl IH Hy]; constructor; auto.
  intros Hin. rewrite Forall_forall in Hy. apply (Hirr y), Hy, Hin.
Qed.

Lemma lex_lt_irrefl (p : Z * Z) : ~ lex_lt p p.
Proof. unfold lex_lt. lia. Qed.

(** What the pair loop of [list_solutions] keeps true. *)
Lemma list_solutions_inv (n : Z) (tol : F) (theta : option F) (R : list F)
      (sols : list (Z * Z * Z)) :
  precompute_R n = Ok (theta, R) ->
  list_solutions n tol = Ok sols ->
  Forall (verified n tol R) sols /\
  StronglySorted lex_lt (pair_of <$> sols) /\
  Z.of_nat (length sols) <= n * n.
Proof.
  intros Hpre Hrun. unfold list_solutions in Hrun.
  destruct (Z.leb_spec n 0) as [Hn|Hn].
  { injection Hrun as <-.
    repeat split; [constructor | constructor | simpl; nia]. }
  rewrite Hpre in Hrun. simpl in Hrun.
  pose (J := fun (i j : Z) (b : Z) (l : list (Z * Z * Z)) =>
               Forall (verified n tol R) l /\
               Forall (fun t => lex_lt (pair_of t) (i, j)) l /\
               StronglySorted lex_lt (pair_of <$> l) /\
               Z.of_nat (length l) <= b).
  assert (HJ : J (n + 1) 1 ((n + 1 - 1) * n) sols).
  { revert Hrun.
    apply (for_range_inv (fun i l => J i 1 ((i - 1) * n) l)); [lia | |].
    { unfold J. simpl.
      repeat split; [constructor | constructor | constructor | lia]. }
    intros i l l' Hi HI Hbody. cbv beta in Hbody.
    apply bind_Ok in Hbody as (Ri & HRi & Hbody).
    assert (HJ : J i (n + 1) ((i - 1) * n + (n + 1 - 1)) l').
    { revert Hbody.
      apply (for_range_inv (fun j l => J i j ((i - 1) * n + (j - 1)) l));
        [lia | |].
      { destruct HI as (? & ? & ? & ?). repeat split; auto. lia. }
      clear l l' HI. intros j l l' Hj (Hver & Hlt & Hsort & Hlen) Hbody.
      cbv beta in Hbody.
      assert (Hskip : J i (j + 1) ((i - 1) * n + (j + 1 - 1)) l).
      { repeat split; auto; [|lia].
        eapply Forall_impl; [exact Hlt|].
        intros [[a b] c]. unfold lex_lt, pair_of. simpl. lia. }
      run Hbody; try exact Hskip.
      match goal with
      | Hk : (1 <=? _) && (_ <=? n) = true |- _ =>
          apply andb_prop in Hk as [Hk1 Hk2]; apply Z.leb_le in Hk1, Hk2
      end.
      destruct Hskip as (_ & Hlt' & _ & _).
      repeat split.
      - apply Forall_app. split; [exact Hver|].
        constructor; [|constructor]. split; [lia|].
        match goal with
        | Hf : fle (fabs (fsub (fmul (fmul ?a ?b) ?c) f1)) tol = true |- _ =>
            exists a, b, c; repeat split; assumption
        end.
      - apply Forall_app. split; [exact Hlt'|].
        constructor; [|constructor].
        unfold lex_lt, pair_of. simpl. lia.
      - rewrite fmap_app. apply StronglySorted_snoc; [exact Hsort|].
        apply Forall_fmap. exact Hlt.
      - rewrite length_app. simpl. lia. }
    destruct HJ as (Hver & Hlt & Hsort & Hlen). repeat split; auto; [|lia].
    eapply Forall_impl; [exact Hlt|].
    intros [[a b] c]. unfold lex_lt, pair_of. simpl. lia. }
  destruct HJ as (Hver & _ & Hsort & Hlen). repeat split; auto. lia.
Qed.

(** A run of [list_solutions] on a positive n has built the table. *)
Lemma list_solutions_table (n : Z) (tol : F) (sols : list (Z * Z * Z)) :
  list_solutions n tol = Ok sols ->
  exists theta R, precompute_R n = Ok (theta, R).
Proof.
  unfold list_solutions. destruct (Z.leb_spec n 0) as [Hn|Hn].
  - intros _. exists None, []. unfold precompute_R.
    apply Z.leb_le in Hn. rewrite Hn. reflexivity.
  - destruct (precompute_R n) as [[theta R]|e]; [eauto | discriminate].
Qed.

(** C4: every triple (i, j, k) returned by [list_solutions n tol], n >= 1,
    has its three indices in [1, n] and passes the test
    |R[i] * R[j] * R[k] - 1| <= tol on the table R of [precompute_R n],
    the product and the comparison being those the code computes. *)
Theorem list_solutions_sound (n : Z) (tol : F) (theta : option F) (R : list F)
        (sols : list (Z * Z * Z)) (i j k : Z) :
  1 <= n ->
  precompute_R n = Ok (theta, R) ->
  list_solutions n tol = Ok sols ->
  (i, j, k) ∈ sols ->
  (1 <= i <= n /\ 1 <= j <= n /\ 1 <= k <= n) /\
  exists Ri Rj Rk,
    getitem R i = Ok Ri /\ getitem R j = Ok Rj /\ getitem R k = Ok Rk /\
    fle (fabs (fsub (fmul (fmul Ri Rj) Rk) f1)) tol = true.
Proof.
  intros _ Hpre Hrun Hin.
  destruct (list_solutions_inv n tol theta R sols Hpre Hrun) as (Hver & _).
  rewrite Forall_forall in Hver. apply (Hver (i, j, k)), Hin.
Qed.

(** C8: the list returned by [list_solutions n tol], n >= 1, is strictly
    increasing in the lexicographic order of the pairs (i, j); no pair
    occurs twice; the list has at most n * n triples, and so has the count
    of [d_angle_fast n tol]. *)
Theorem list_solutions_discovery_order (n : Z) (tol : F)
        (sols : list (Z * Z * Z)) :
  1 <= n ->
  list_solutions n tol = Ok sols ->
  StronglySorted lex_lt (pair_of <$> sols) /\
  NoDup (pair_of <$> sols) /\
  Z.of_nat (length sols) <= n * n /\
  exists count, d_angle_fast n tol = Ok count /\ count <= n * n.
Proof.
  intros _ Hrun.
  destruct (list_solutions_table n tol sols Hrun) as (theta & R & Hpre).
  destruct (list_solutions_inv n tol theta R sols Hpre Hrun)
    as (_ & Hsort & Hlen).
  split; [exact Hsort|]. split; [|split; [exact Hlen|]].
  - eapply StronglySorted_irrefl_NoDup; [apply lex_lt_irrefl | exact Hsort].
  - pose proof (count_is_length n tol) as Hagree. rewrite Hrun in Hagree.
    destruct (d_angle_fast n tol) as [count|e]; simpl in Hagree;
      [|contradiction].
    exists count. split; [reflexivity | lia].
Qed.
End EngineFacts.

(** *** At a sample input

    The theorems above applied to runs in double precision with the sample
    libm. *)

Section SampleWitnesses.
#[local] Existing Instance Binary64.sample.
Import Binary64.

Lemma degenerate_input_witness :
  -3 <= 0 /\
  d_angle_fast (-3) tol_default = Ok 0 /\
  list_solutions (-3) tol_default = Ok [] /\
  precompute_R (-3) = Ok (None, []).
Proof.
  split; [lia | apply (degenerate_input (-3) tol_default); lia].
Defined.

Lemma list_solutions_sound_witness :
  exists theta R,
    1 <= 3 /\
    precompute_R 3 = Ok (theta, R) /\
    list_solutions 3 tol_default
    = Ok [(1, 2, 3); (1, 3, 2); (2, 1, 3); (2, 2, 2); (2, 3, 1); (3, 1, 2);
          (3, 2, 1)] /\
    ((1 <= 2 <= 3 /\ 1 <= 3 <= 3 /\ 1 <= 1 <= 3) /\
     exists Ri Rj Rk,
       getitem R 2 = Ok Ri /\ getitem R 3 = Ok Rj /\ getitem R 1 = Ok Rk /\
       PrimFloat.leb (PrimFloat.abs (Ri * Rj * Rk - 1)) tol_default = true).
Proof.
  assert (Hn : 1 <= 3) by lia.
  destruct (precompute_R 3) as [[theta R]|e] eqn:Hpre;
    [|vm_compute in Hpre; discriminate Hpre].
  assert (Hrun : list_solutions 3 tol_default
                 = Ok [(1, 2, 3); (1, 3, 2); (2, 1, 3); (2, 2, 2); (2, 3, 1);
                       (3, 1, 2); (3, 2, 1)])
    by (vm_compute; reflexivity).
  assert (Hin : (2, 3, 1) ∈ [(1, 2, 3); (1, 3, 2); (2, 1, 3); (2, 2, 2);
                             (2, 3, 1); (3, 1, 2); (3, 2, 1)])
    by (apply list_elem_of_In; simpl; tauto).
  exists theta, R.
  split; [exact Hn|]. split; [reflexivity|]. split; [exact Hrun|].
  exact (list_solutions_sound 3 tol_default theta R _ 2 3 1 Hn Hpre Hrun Hin).
Defined.

Lemma list_solutions_discovery_order_witness :
  1 <= 3 /\
  list_solutions 3 tol_default
  = Ok [(1, 2, 3); (1, 3, 2); (2, 1, 3); (2, 2, 2); (2, 3, 1); (3, 1, 2);
        (3, 2, 1)] /\
  (StronglySorted lex_lt
     [(1, 2); (1, 3); (2, 1); (2, 2); (2, 3); (3, 1); (3, 2)] /\
   NoDup [(1, 2); (1, 3); (2, 1); (2, 2); (2, 3); (3, 1); (3, 2)] /\
   (7 <= 3 * 3) /\
   exists count, d_angle_fast 3 tol_default = Ok count /\ count <= 3 * 3).
Proof.
  assert (Hn : 1 <= 3) by lia.
  assert (Hrun : list_solutions 3 tol_default
                 = Ok [(1, 2, 3); (1, 3, 2); (2, 1, 3); (2, 2, 2); (2, 3, 1);
                       (3, 1, 2); (3, 2, 1)])
    by (vm_compute; reflexivity).
  split; [exact Hn|]. split; [exact Hrun|].
  exact (list_solutions_discovery_order 3 tol_default _ Hn Hrun).
Defined.
End SampleWitnesses.

(** ** Reading and writing a list *)

Lemma getitem_lookup {A : Type} (l : list A) (k : Z) (a : A) :
  0 <= k -> l !! Z.to_nat k = Some a -> getitem l k = Ok a.
Proof.
  intros Hk Hl. unfold getitem.
  pose proof (lookup_lt_Some _ _ _ Hl) as Hlen.
  destruct (Z.ltb_spec k 0) as [?|_]; [lia|].
  destruct (Z.ltb_spec k 0) as [?|_]; [lia|].
  destruct (Z.leb_spec (Z.of_nat (length l)) k) as [?|_]; [lia|].
  simpl. rewrite Hl. reflexivity.
Qed.

Lemma setitem_in_range {A : Type} (l : list A) (k : Z) (v : A) :
  0 <= k < Z.of_nat (length l) ->
  setitem l k v = Ok (<[Z.to_nat k := v]> l).
Proof.
  intros Hk. unfold setitem.
  destruct (Z.ltb_spec k 0) as [?|_]; [lia|].
  destruct (Z.ltb_spec k 0) as [?|_]; [lia|].
  destruct (Z.leb_spec (Z.of_nat (length l)) k) as [?|_]; [lia|].
  reflexivity.
Qed.

(** ** The code over the reals

    The same code run over the real numbers, where the table is the one
    of the docstring and no step raises. *)

Section ExactFacts.
Import Exact.
Local Open Scope R_scope.

Lemma angle_pos (n : Z) : (1 <= n)%Z -> 0 < angle n.
Proof.
  intros Hn. unfold angle.
  assert (0 < IZR (n + 1)) by (apply IZR_lt; lia).
  pose proof PI_RGT_0.
  apply Rdiv_lt_0_compat; lra.
Qed.

(** [k * theta] lies strictly between 0 and [pi/3] for k in [1, n]. *)
Lemma angle_range (n k : Z) :
  (1 <= n)%Z -> (1 <= k <= n)%Z -> 0 < IZR k * angle n < PI / 3.
Proof.
  intros Hn Hk. pose proof (angle_pos n Hn) as Hth.
  assert (Hk1 : 1 <= IZR k) by (apply IZR_le; lia).
  assert (Hkn : IZR k + 1 <= IZR (n + 1)).
  { rewrite plus_IZR. assert (IZR k <= IZR n) by (apply IZR_le; lia). lra. }
  assert (Hn1 : 0 < IZR (n + 1)) by lra.
  split; [nra|].
  assert (Heq : angle n * IZR (n + 1) = PI / 3).
  { unfold angle. field. lra. }
  nra.
Qed.

(** On (0, pi/3) the tangent is defined and lies strictly between 0 and
    the square root of 3. *)
Lemma tan_range (x : R) :
  0 < x < PI / 3 -> cos x <> 0 /\ 0 < tan x < sqrt 3.
Proof.
  intros [H0 H3]. pose proof PI_RGT_0 as Hpi.
  assert (Hx2 : x < PI / 2) by lra.
  split; [|split].
  - apply Rgt_not_eq, cos_gt_0; lra.
  - apply tan_gt_0; assumption.
  - rewrite <- tan_PI3. apply tan_increasing; lra.
Qed.

Lemma ratio_pos (x : R) : 0 < x < PI / 3 -> 0 < ratio x.
Proof.
  intros Hx. destruct (tan_range x Hx) as (_ & Ht0 & Ht3).
  unfold ratio. apply Rdiv_lt_0_compat; lra.
Qed.

(** The loop of [precompute_R] over the reals: no iteration raises, and
    the entry written at k is [ratio (k * theta)]. *)
Lemma table_loop_exact (n : Z) :
  (1 <= n)%Z ->
  exists T : list R,
    for_each (range 1 (n + 1))
      (fun k R =>
         kf ← of_int k;
         t ← ftan (fmul kf (angle n));
         q ← fdiv (fmul f2 t) (fsub SQRT3 t);
         setitem R k q)
      (replicate (Z.to_nat (n + 1)) f0) = Ok T /\
    length T = Z.to_nat (n + 1) /\
    forall k, (1 <= k < n + 1)%Z ->
              T !! Z.to_nat k = Some (ratio (IZR k * angle n)).
Proof.
  intros Hn.
  apply (for_range_total
           (fun k (T : list R) =>
              length T = Z.to_nat (n + 1) /\
              forall j, (1 <= j < k)%Z ->
                        T !! Z.to_nat j = Some (ratio (IZR j * angle n)))).
  - lia.
  - split; [apply length_replicate | intros j Hj; lia].
  - intros k T Hk [Hlen Hentries].
    destruct (tan_range (IZR k * angle n)) as (Hcos & Ht0 & Ht3);
      [apply angle_range; lia|].
    cbn [of_int reals mbind result_bind ftan fdiv fmul fsub f2 f3 fsqrt].
    unfold ex_tan. destruct (Req_dec_T (cos (IZR k * angle n)) 0) as [?|_];
      [contradiction|].
    cbn [mbind result_bind]. unfold SQRT3. cbn [fsqrt f3 reals]. unfold ex_div.
    destruct (Req_dec_T (sqrt 3 - tan (IZR k * angle n)) 0) as [?|_]; [lra|].
    cbn [mbind result_bind]. rewrite setitem_in_range by lia.
    eexists. split; [reflexivity|]. split.
    + rewrite length_insert. exact Hlen.
    + intros j Hj. destruct (Z.eq_dec j k) as [->|Hne].
      * rewrite list_lookup_insert_eq by lia. reflexivity.
      * rewrite list_lookup_insert_ne by lia. apply Hentries. lia.
Qed.

(** The table built by [precompute_R] over the reals. *)
Lemma precompute_R_exact (n : Z) :
  (1 <= n)%Z ->
  exists tbl : list R,
    precompute_R n = Ok (Some (angle n), tbl) /\
    length tbl = Z.to_nat (n + 1) /\
    forall k, (1 <= k <= n)%Z ->
              tbl !! Z.to_nat k = Some (ratio (IZR k * angle n)).
Proof.
  intros Hn. destruct (table_loop_exact n Hn) as (T & HT & Hlen & Hentries).
  exists T. split; [|split; [exact Hlen | intros k Hk; apply Hentries; lia]].
  unfold precompute_R.
  destruct (Z.leb_spec n 0) as [?|_]; [lia|].
  change (of_int (n + 1)) with (Ok (IZR (n + 1))). rewrite bind_ret.
  change (fdiv fpi (fmul f3 (IZR (n + 1)))) with (ex_div PI (3 * IZR (n + 1))).
  unfold ex_div. destruct (Req_dec_T (3 * IZR (n + 1)) 0) as [Hz|_].
  { assert (0 < IZR (n + 1)) by (apply IZR_lt; lia). lra. }
  rewrite bind_ret. fold (angle n). rewrite HT. reflexivity.
Qed.

Lemma fdiv_reals (x y : R) : y <> 0 -> fdiv x y = Ok (x / y).
Proof.
  intros Hy. cbn [fdiv reals]. unfold ex_div.
  destruct (Req_dec_T y 0); [contradiction | reflexivity].
Qed.

Lemma fround_reals (x : R) : exists k : Z, fround x = Ok k.
Proof.
  cbn [fround reals]. unfold ex_round.
  destruct (Rlt_dec _ _); [eauto|]. destruct (Rlt_dec _ _); eauto.
Qed.

(** Over the reals and for n >= 1, [list_solutions] raises nothing. *)
Lemma list_solutions_exact_total (n : Z) (tol : R) :
  (1 <= n)%Z -> exists sols, list_solutions n tol = Ok sols.
Proof.
  intros Hn. destruct (precompute_R_exact n Hn) as (T & HT & Hlen & Hentries).
  assert (Hget : forall k, (1 <= k <= n)%Z ->
                           getitem T k = Ok (ratio (IZR k * angle n))).
  { intros k Hk. apply getitem_lookup; [lia | apply Hentries, Hk]. }
  assert (Hpos : forall k, (1 <= k <= n)%Z -> 0 < ratio (IZR k * angle n)).
  { intros k Hk. apply ratio_pos, angle_range; assumption. }
  unfold list_solutions. destruct (Z.leb_spec n 0) as [?|_]; [lia|].
  rewrite HT, bind_ret.
  destruct (for_range_total (fun _ (_ : list (Z * Z * Z)) => True))
    with (lo := 1%Z) (hi := (n + 1)%Z) (s := @nil (Z * Z * Z))
         (body := fun (i : Z) (sols : list (Z * Z * Z)) =>
                    Ri ← getitem T i;
                    for_each (range 1 (n + 1))
                      (fun j sols =>
                         Rj ← getitem T j;
                         r_target ← fdiv f1 (fmul Ri Rj);
                         if fle r_target f0 then Ok sols
                         else
                           t ← fdiv (fmul r_target SQRT3) (fadd f2 r_target);
                           if fle t f0 then Ok sols
                           else
                             let x := fatan t in
                             q ← div_theta x (Some (angle n));
                             k ← fround q;
                             if (1 <=? k)%Z && (k <=? n)%Z then
                               Rj' ← getitem T j;
                               Rk ← getitem T k;
                               let prod := fmul (fmul Ri Rj') Rk in
                               if fle (fabs (fsub prod f1)) tol
                               then Ok (sols ++ [(i, j, k)])
                               else Ok sols
                             else Ok sols)
                      sols)
    as (sols & Hsols & _); [lia | exact I | | eauto].
  intros i l Hi _. cbv beta.
  rewrite Hget, bind_ret by lia.
  pose proof (Hpos i ltac:(lia)) as HRi.
  set (Ri := ratio (IZR i * angle n)) in *.
  apply for_range_total with (I := fun _ _ => True); [lia | exact I |].
  clear l. intros j l Hj _. cbv beta.
  rewrite Hget, bind_ret by lia.
  pose proof (Hpos j ltac:(lia)) as HRj.
  set (Rj := ratio (IZR j * angle n)) in *.
  assert (Hprod : 0 < Ri * Rj) by (apply Rmult_lt_0_compat; assumption).
  rewrite fdiv_reals, bind_ret by (cbn [fmul reals]; lra).
  assert (Hr : 0 < 1 / (Ri * Rj)) by (apply Rdiv_lt_0_compat; lra).
  cbn [f1 fmul reals]. set (r := 1 / (Ri * Rj)) in *.
  destruct (fle r f0); [eauto|].
  rewrite fdiv_reals, bind_ret by (cbn [fadd f2 reals]; lra).
  destruct (fle _ f0); [eauto|].
  cbv zeta. unfold div_theta.
  rewrite fdiv_reals, bind_ret by (apply Rgt_not_eq, angle_pos, Hn).
  match goal with
  | |- context [fround ?q] => destruct (fround_reals q) as [k Hk]
  end.
  rewrite Hk, bind_ret.
  destruct ((1 <=? k)%Z && (k <=? n)%Z) eqn:Hb; [|eauto].
  apply andb_prop in Hb as [Hk1 Hk2]. apply Z.leb_le in Hk1, Hk2.
  rewrite bind_ret. rewrite (Hget k), bind_ret by lia.
  destruct (fle _ tol); eauto.
Qed.

(** Over the reals and for n >= 1, [d_angle_fast] returns a count. *)
Lemma d_angle_fast_exact_total (n : Z) (tol : R) :
  (1 <= n)%Z -> exists count, d_angle_fast n tol = Ok count.
Proof.
  intros Hn. destruct (list_solutions_exact_total n tol Hn) as [sols Hsols].
  pose proof (count_is_length n tol) as Hagree. rewrite Hsols in Hagree.
  destruct (d_angle_fast n tol) as [count|e]; [eauto | contradiction].
Qed.

Lemma fle_reals (x y : R) : fle x y = true <-> x <= y.
Proof.
  cbn [fle reals]. unfold ex_le.
  destruct (Rle_dec x y); split; intros; auto; discriminate.
Qed.

(** Over the reals, a returned triple satisfies the Ceva relation of the
    docstring within the tolerance. *)
Lemma list_solutions_sound_exact (n : Z) (tol : R)
      (sols : list (Z * Z * Z)) (i j k : Z) :
  (1 <= n)%Z ->
  list_solutions n tol = Ok sols ->
  (i, j, k) ∈ sols ->
  Rabs (ratio (IZR i * angle n) * ratio (IZR j * angle n)
        * ratio (IZR k * angle n) - 1) <= tol.
Proof.
  intros Hn Hrun Hin.
  destruct (precompute_R_exact n Hn) as (T & HT & Hlen & Hentries).
  destruct (list_solutions_inv n tol _ T sols HT Hrun) as (Hver & _).
  rewrite Forall_forall in Hver.
  destruct (Hver (i, j, k) Hin)
    as ((Hi & Hj & Hk) & Ri & Rj & Rk & HRi & HRj & HRk & Hle).
  rewrite (getitem_lookup T i _ ltac:(lia) (Hentries i Hi)) in HRi.
  rewrite (getitem_lookup T j _ ltac:(lia) (Hentries j Hj)) in HRj.
  rewrite (getitem_lookup T k _ ltac:(lia) (Hentries k Hk)) in HRk.
  injection HRi as <-. injection HRj as <-. injection HRk as <-.
  apply fle_reals in Hle. exact Hle.
Qed.

End ExactFacts.

(** ** The b-file *)

#[local] Arguments String.append !_ _ / : simpl nomatch.
























Section DriverFacts.
Context {F : Type} `{PyFloat F}.

(** X11: the table of [main] has one value for each n in 1 .. max_n, the
    value at n being the count of [d_angle_fast] for n. *)
Lemma main_table_length (max_n : Z) (tol : F) (vals : list Z) :
  0 <= max_n ->
  main_table max_n tol = Ok vals ->
  Z.of_nat (length vals) = max_n /\
  forall n, 1 <= n <= max_n ->
            exists d, d_angle_fast n tol = Ok d /\
                      vals !! Z.to_nat (n - 1) = Some d.
Proof.
  intros Hmax Hrun. unfold main_table in Hrun.
  assert (HI : Z.of_nat (length vals) = max_n + 1 - 1 /\
               forall n, 1 <= n < max_n + 1 ->
                         exists d, d_angle_fast n tol = Ok d /\
                                   vals !! Z.to_nat (n - 1) = Some d).
  { revert Hrun.
    apply (for_range_inv
             (fun m (l : list Z) =>
                Z.of_nat (length l) = m - 1 /\
                forall n, 1 <= n < m ->
                          exists d, d_angle_fast n tol = Ok d /\
                                    l !! Z.to_nat (n - 1) = Some d));
      [lia | split; [reflexivity | intros; lia] |].
    intros m l l' Hm [Hlen Hl] Hbody. cbv beta in Hbody. run Hbody.
    split; [rewrite length_app; simpl; lia|].
    intros n Hn. destruct (Z.eq_dec n m) as [->|Hne].
    - eexists. split; [eassumption|].
      rewrite lookup_app_r by lia.
      replace (Z.to_nat (m - 1) - length l)%nat with O by lia. reflexivity.
    - destruct (Hl n) as (d & Hd & Hnth); [lia|].
      exists d. split; [exact Hd|].
      rewrite lookup_app_l; [exact Hnth | lia]. }
  destruct HI as [Hlen Hl]. split; [lia|].
  intros n Hn. apply Hl. lia.
Qed.

(** X14: the check of [test_rule.py] passes exactly when the count is the rule
    at every n of 1 .. 200; any mismatch or exception makes it fail. *)
Lemma test_rule_main_ok :
  test_rule_main = Ok tt <->
  forall n, 1 <= n <= 200 -> d_angle_fast n f_tol = Ok (a_rule n).
Proof.
  unfold test_rule_main. split.
  - intros Hrun. apply bind_Ok in Hrun as (bad & Hloop & Hbad).
    destruct bad as [|b bad]; [clear Hbad | discriminate Hbad].
    assert (HI : @nil (Z * Z * Z) = [] ->
                 forall n, 1 <= n < 201 ->
                           d_angle_fast n f_tol = Ok (a_rule n)).
    { revert Hloop.
      apply (for_range_inv
               (fun m (l : list (Z * Z * Z)) =>
                  l = [] ->
                  forall n, 1 <= n < m ->
                            d_angle_fast n f_tol = Ok (a_rule n)));
        [lia | intros; lia |].
      intros m l l' Hm Hl Hbody. cbv beta zeta in Hbody. run Hbody.
      - intros Hnil. destruct l; discriminate Hnil.
      - intros Hnil n Hn. destruct (Z.eq_dec n m) as [->|Hne].
        + match goal with
          | Hd : negb (_ =? _) = false |- _ =>
              apply negb_false_iff, Z.eqb_eq in Hd; congruence
          end.
        + apply Hl; [exact Hnil | lia]. }
    intros n Hn. apply HI; [reflexivity | lia].
  - intros Hall.
    match goal with
    | |- for_each _ ?body _ ≫= _ = _ =>
        destruct (for_range_total
                    (fun _ (l : list (Z * Z * Z)) => l = []) body 1 201 [])
        as (bad & Hloop & ->);
        [lia | reflexivity | | rewrite Hloop; reflexivity]
    end.
    intros n l Hn ->. rewrite Hall by lia. cbv zeta. rewrite bind_ret.
    rewrite Z.eqb_refl. simpl. eauto.
Qed.

End DriverFacts.

(** ** Sample runs

    The model run in double precision with the sample libm. *)

Example sample_table_0 :
  @precompute_R _ Binary64.sample 0 = Ok (None, []).
Proof. reflexivity. Qed.

Example sample_counts :
  (fun n => @d_angle_fast _ Binary64.sample n Binary64.tol_default)
    <$> range 0 13
  = (fun n => Ok (a_rule n)) <$> range 0 13.
Proof. vm_compute. reflexivity. Qed.

Example sample_rounding :
  Binary64.b64_round 2.5%float = Ok 2 /\
  Binary64.b64_round 3.5%float = Ok 4 /\
  Binary64.b64_round (-3.5)%float = Ok (-4) /\
  Binary64.b64_round PrimFloat.infinity = Raise OverflowError /\
  Binary64.b64_round PrimFloat.nan = Raise ValueError.
Proof. vm_compute. repeat split. Qed.

Example sample_conversion :
  Binary64.b64_of_int 9007199254740993 = Ok 9007199254740992%float /\
  Binary64.b64_of_int (2 ^ 1024) = Raise OverflowError.
Proof. vm_compute. split; reflexivity. Qed.

Example sample_bfile :
  (fun fs : files => fs !! "b.txt")
    <$> @write_bfile sample_platform [1; 0; 7; 0; 13] "b.txt"
          (<["b.txt" := "old"]> ∅)
  = Ok (Some ("1 1" +:+ eol +:+ "2 0" +:+ eol +:+ "3 7" +:+ eol +:+
              "4 0" +:+ eol +:+ "5 13" +:+ eol)).
Proof. vm_compute. reflexivity. Qed.

Example sample_read :
  read_bfile ("1 1" +:+ eol +:+ "2 0" +:+ eol +:+ "3 -7" +:+ eol)
  = Some [(1, 1); (2, 0); (3, -7)].
Proof. vm_compute. reflexivity. Qed.

(** * Further properties *)

(** ** The pair loop *)

Section PairLoop.
Context {F : Type} `{PyFloat F}.

(** One iteration of the inner loop leaves the list as it is or appends
    one triple (i, j, k) for the current pair. *)
Lemma pair_step_grows (theta : option F) (R : list F) (n : Z) (tol : F)
      (i : Z) (Ri : F) (j : Z) (l l' : list (Z * Z * Z)) :
  list_solutions_pair theta R n tol i Ri j l = Ok l' ->
  l' = l \/ exists k, l' = l ++ [(i, j, k)].
Proof.
  intros Hbody. cbv beta zeta in Hbody.
  run Hbody; first [left; reflexivity | right; eexists; reflexivity].
Qed.
(** The tolerance enters only the final test.  If every value accepted
    under [tol] is accepted under [tol'], the two runs raise the same
    exception or both return, the list under [tol] being a sublist of the
    list under [tol'] and the count under [tol] at most the other. *)
Lemma pair_loop_tolerance (n : Z) (tol tol' : F) :
  (forall a, fle a tol = true -> fle a tol' = true) ->
  agree sublist (list_solutions n tol) (list_solutions n tol') /\
  agree Z.le (d_angle_fast n tol) (d_angle_fast n tol').
Proof.
  intros Hmono.
  assert (Hlists : agree sublist (list_solutions n tol) (list_solutions n tol')).
  { unfold list_solutions. destruct (n <=? 0); [simpl; constructor|].
    apply agree_bind_same. intros [theta R] _.
    apply for_each_agree; [constructor|].
    intros i l l' Hsub.
    apply agree_bind_same. intros Ri _.
    apply for_each_agree; [exact Hsub|].
    clear l l' Hsub. intros j l l' Hsub.
    apply agree_bind_same. intros Rj _.
    apply agree_bind_same. intros r_target _.
    destruct (fle r_target f0); [exact Hsub|].
    apply agree_bind_same. intros t _.
    destruct (fle t f0); [exact Hsub|].
    apply agree_bind_same. intros q _.
    apply agree_bind_same. intros k _.
    destruct ((1 <=? k) && (k <=? n)); [|exact Hsub].
    apply agree_bind_same. intros Rj' _.
    apply agree_bind_same. intros Rk _.
    destruct (fle _ tol) eqn:Hle.
    - rewrite (Hmono _ Hle). simpl. apply sublist_app; [exact Hsub|].
      reflexivity.
    - destruct (fle _ tol'); simpl; [|exact Hsub].
      apply sublist_inserts_r. exact Hsub. }
  split; [exact Hlists|].
  pose proof (count_is_length n tol) as H1.
  pose proof (count_is_length n tol') as H2.
  destruct (list_solutions n tol) as [l|e], (list_solutions n tol') as [l'|e'],
    (d_angle_fast n tol) as [c|e1], (d_angle_fast n tol') as [c'|e1'];
    simpl in *; try contradiction; try congruence.
  apply sublist_length in Hlists. lia.
Qed.
End PairLoop.

(** ** Double precision, whatever the libm *)

Section Binary64Facts.
Import PrimFloat Binary64.

Lemma SFleb_trans (x y z : spec_float) :
  SFleb x y = true -> SFleb y z = true -> SFleb x z = true.
Proof.
  unfold SFleb, SFcompare.
  destruct x as [sx|sx| |sx mx ex], y as [sy|sy| |sy my ey],
    z as [sz|sz| |sz mz ez];
    repeat match goal with s : bool |- _ => destruct s end;
    try discriminate; try reflexivity; intros Hxy Hyz.
  all: destruct (Z.compare_spec ex ey), (Z.compare_spec ey ez),
         (Z.compare_spec ex ez); try lia; try discriminate; try reflexivity.
  all: subst; rewrite ?Pos.compare_cont_spec in *; simpl in *.
  all: destruct (Pos.compare_spec mx my), (Pos.compare_spec my mz),
         (Pos.compare_spec mx mz); simpl in *; try lia; try discriminate;
         try reflexivity.
Qed.

(** [<=] on doubles is transitive (NaN compares with nothing). *)
Lemma b64_leb_trans (x y z : float) :
  (x <=? y)%float = true -> (y <=? z)%float = true -> (x <=? z)%float = true.
Proof. rewrite !leb_spec. apply SFleb_trans. Qed.

(** X2: in double precision and for any [math.tan] and [math.atan], raising
    the tolerance keeps every triple and can only add some: with
    tol <= tol', the two runs raise the same exception, or the list under
    [tol] is a sublist of the list under [tol'] and the count under [tol]
    is at most the count under [tol']. *)
Theorem tolerance_monotone_binary64 (tan : float -> result float)
        (atan : float -> float) (n : Z) (tol tol' : float) :
  (tol <=? tol')%float = true ->
  agree sublist (@list_solutions _ (binary64 tan atan) n tol)
        (@list_solutions _ (binary64 tan atan) n tol') /\
  agree Z.le (@d_angle_fast _ (binary64 tan atan) n tol)
        (@d_angle_fast _ (binary64 tan atan) n tol').
Proof.
  intros Hle. apply pair_loop_tolerance.
  intros a Ha. cbn [fle binary64] in *. exact (b64_leb_trans _ _ _ Ha Hle).
Qed.

Lemma tolerance_monotone_binary64_witness :
  (0x1.203af9ee75616p-50 <=? tol_default)%float = true /\
  agree sublist
    (@list_solutions _ sample 7 0x1.203af9ee75616p-50%float)
    (@list_solutions _ sample 7 tol_default) /\
  agree Z.le
    (@d_angle_fast _ sample 7 0x1.203af9ee75616p-50%float)
    (@d_angle_fast _ sample 7 tol_default).
Proof.
  assert (Hle : (0x1.203af9ee75616p-50 <=? tol_default)%float = true)
    by reflexivity.
  split; [exact Hle|].
  exact (tolerance_monotone_binary64 sample_tan sample_atan 7
           0x1.203af9ee75616p-50%float tol_default Hle).
Defined.
End Binary64Facts.

(** ** The shape of the table *)

Lemma setitem_Ok {A : Type} (l l' : list A) (k : Z) (v : A) :
  0 <= k -> setitem l k v = Ok l' ->
  k < Z.of_nat (length l) /\ l' = <[Z.to_nat k := v]> l.
Proof.
  intros Hk. unfold setitem.
  destruct (Z.ltb_spec k 0) as [?|_]; [lia|].
  destruct (Z.ltb_spec k 0) as [?|_]; [lia|].
  destruct (Z.leb_spec (Z.of_nat (length l)) k) as [?|Hlt]; simpl;
    [discriminate|].
  intros [= <-]. split; [exact Hlt | reflexivity].
Qed.

Section TableShape.
Context {F : Type} `{PyFloat F}.

(** What a returned table holds, entry by entry. *)
Lemma precompute_R_entries (n : Z) (theta : option F) (R : list F) :
  1 <= n ->
  precompute_R n = Ok (theta, R) ->
  exists n1 th,
    of_int (n + 1) = Ok n1 /\ fdiv fpi (fmul f3 n1) = Ok th /\
    theta = Some th /\
    Z.of_nat (length R) = n + 1 /\
    getitem R 0 = Ok f0 /\
    forall k, 1 <= k <= n ->
      exists kf t q,
        of_int k = Ok kf /\ ftan (fmul kf th) = Ok t /\
        fdiv (fmul f2 t) (fsub SQRT3 t) = Ok q /\
        getitem R k = Ok q.
Proof.
  intros Hn Hrun. unfold precompute_R in Hrun.
  destruct (Z.leb_spec n 0) as [?|_]; [lia|].
  apply bind_Ok in Hrun as (n1 & Hn1 & Hrun).
  apply bind_Ok in Hrun as (th & Hth & Hrun).
  apply bind_Ok in Hrun as (T & Hloop & Hrun).
  injection Hrun as <- <-.
  exists n1, th. split; [exact Hn1|]. split; [exact Hth|].
  split; [reflexivity|].
  assert (HI : length T = Z.to_nat (n + 1) /\
               T !! O = Some f0 /\
               forall k, 1 <= k < n + 1 ->
                 exists kf t q,
                   of_int k = Ok kf /\ ftan (fmul kf th) = Ok t /\
                   fdiv (fmul f2 t) (fsub SQRT3 t) = Ok q /\
                   T !! Z.to_nat k = Some q).
  { revert Hloop.
    apply (for_range_inv
             (fun m (l : list F) =>
                length l = Z.to_nat (n + 1) /\
                l !! O = Some f0 /\
                forall k, 1 <= k < m ->
                  exists kf t q,
                    of_int k = Ok kf /\ ftan (fmul kf th) = Ok t /\
                    fdiv (fmul f2 t) (fsub SQRT3 t) = Ok q /\
                    l !! Z.to_nat k = Some q)); [lia | |].
    { split; [apply length_replicate|]. split; [|intros; lia].
      apply lookup_replicate_2. lia. }
    intros m l l' Hm (Hlen & Hzero & Hentries) Hbody. cbv beta in Hbody.
    apply bind_Ok in Hbody as (kf & Hkf & Hbody).
    apply bind_Ok in Hbody as (t & Ht & Hbody).
    apply bind_Ok in Hbody as (q & Hq & Hbody).
    apply setitem_Ok in Hbody as [Hlt ->]; [|lia].
    split; [rewrite length_insert; exact Hlen|]. split.
    - rewrite list_lookup_insert_ne by lia. exact Hzero.
    - intros k Hk. destruct (Z.eq_dec k m) as [->|Hne].
      + exists kf, t, q. repeat split; try assumption.
        apply list_lookup_insert_eq. lia.
      + destruct (Hentries k) as (kf' & t' & q' & ? & ? & ? & Hl); [lia|].
        exists kf', t', q'. repeat split; try assumption.
        rewrite list_lookup_insert_ne by lia. exact Hl. }
  destruct HI as (Hlen & Hzero & Hentries).
  split; [lia|]. split.
  - apply getitem_lookup; [lia | exact Hzero].
  - intros k Hk. destruct (Hentries k) as (kf & t & q & ? & ? & ? & Hl); [lia|].
    exists kf, t, q. repeat split; try assumption.
    apply getitem_lookup; [lia | exact Hl].
Qed.

(** X1: a table returned by [precompute_R n], n >= 1, comes with an angle
    [pi / (3.0 * (n + 1))]; it has n + 1 entries, the entry at 0 is the
    [0.0] it was filled with, and the entry at each k of 1 .. n is
    [2.0 * t / (SQRT3 - t)] for [t = tan (k * theta)], none of these
    operations having raised. *)
Theorem precompute_R_shape (n : Z) (theta : option F) (R : list F) :
  1 <= n ->
  precompute_R n = Ok (theta, R) ->
  exists n1 th,
    of_int (n + 1) = Ok n1 /\ fdiv fpi (fmul f3 n1) = Ok th /\
    theta = Some th /\
    Z.of_nat (length R) = n + 1 /\
    getitem R 0 = Ok f0 /\
    forall k, 1 <= k <= n ->
      exists kf t q,
        of_int k = Ok kf /\ ftan (fmul kf th) = Ok t /\
        fdiv (fmul f2 t) (fsub SQRT3 t) = Ok q /\
        getitem R k = Ok q.
Proof. exact (precompute_R_entries n theta R). Qed.
End TableShape.

Lemma precompute_R_shape_witness :
  exists theta R,
    1 <= 3 /\
    @precompute_R _ Binary64.sample 3 = Ok (theta, R) /\
    exists n1 th,
      Binary64.b64_of_int (3 + 1) = Ok n1 /\
      Binary64.b64_div Binary64.pi (3 * n1)%float = Ok th /\
      theta = Some th /\
      Z.of_nat (length R) = 3 + 1 /\
      getitem R 0 = Ok 0%float /\
      forall k, 1 <= k <= 3 ->
        exists kf t q,
          Binary64.b64_of_int k = Ok kf /\
          Binary64.sample_tan (kf * th)%float = Ok t /\
          Binary64.b64_div (2 * t)%float (PrimFloat.sqrt 3 - t)%float = Ok q /\
          getitem R k = Ok q.
Proof.
  assert (Hn : 1 <= 3) by lia.
  destruct (@precompute_R _ Binary64.sample 3) as [[theta R]|e] eqn:Hpre;
    [|vm_compute in Hpre; discriminate Hpre].
  exists theta, R. split; [exact Hn|]. split; [reflexivity|].
  exact (@precompute_R_shape _ Binary64.sample 3 theta R Hn Hpre).
Defined.

(** ** The table in double precision

    What follows reads the operations on doubles through their
    specification on mantissas and exponents ([SpecFloat]): a double is
    [m * 2^e] with [m] of at most 53 binary digits and [e] at least
    -1074. *)

(** *** Binary digits and shifts *)

Lemma digits2_pos_bounds (m : positive) :
  2 ^ (Zpos (digits2_pos m) - 1) <= Zpos m < 2 ^ Zpos (digits2_pos m).
Proof.
  induction m as [m IH|m IH|]; cbn [digits2_pos].
  - rewrite Pos2Z.inj_succ, Pos2Z.inj_xI.
    replace (Z.succ (Zpos (digits2_pos m)) - 1)
      with (Z.succ (Zpos (digits2_pos m) - 1)) by lia.
    rewrite !Z.pow_succ_r by lia. lia.
  - rewrite Pos2Z.inj_succ. change (Zpos m~0) with (2 * Zpos m).
    replace (Z.succ (Zpos (digits2_pos m)) - 1)
      with (Z.succ (Zpos (digits2_pos m) - 1)) by lia.
    rewrite !Z.pow_succ_r by lia. lia.
  - simpl. lia.
Qed.

Lemma Zdigits2_bounds (m : Z) :
  0 < m -> 0 < Zdigits2 m /\ 2 ^ (Zdigits2 m - 1) <= m < 2 ^ Zdigits2 m.
Proof.
  destruct m as [|p|p]; try lia. intros _. cbn [Zdigits2].
  split; [lia | apply digits2_pos_bounds].
Qed.

Lemma Zdigits2_unique (m d : Z) :
  0 < m -> 2 ^ (d - 1) <= m < 2 ^ d -> Zdigits2 m = d.
Proof.
  intros Hm [Hlo Hhi].
  destruct (Zdigits2_bounds m Hm) as (Hd & Hlo' & Hhi').
  assert (Hd0 : 0 < d).
  { destruct (Z.lt_trichotomy d 0) as [Hneg|[->|Hpos]];
      [|simpl in Hhi; lia|exact Hpos].
    rewrite Z.pow_neg_r in Hhi by exact Hneg. lia. }
  destruct (Z.lt_trichotomy (Zdigits2 m) d) as [Hlt|[Heq|Hgt]]; [|exact Heq|].
  - assert (2 ^ Zdigits2 m <= 2 ^ (d - 1)) by (apply Z.pow_le_mono_r; lia). lia.
  - assert (2 ^ d <= 2 ^ (Zdigits2 m - 1)) by (apply Z.pow_le_mono_r; lia). lia.
Qed.

Lemma Zdigits2_le (m d : Z) : 0 < m -> m < 2 ^ d -> Zdigits2 m <= d.
Proof.
  intros Hm Hhi. destruct (Zdigits2_bounds m Hm) as (Hd & Hlo & _).
  destruct (Z.le_gt_cases (Zdigits2 m) d) as [?|Hgt]; [assumption|].
  assert (2 ^ d <= 2 ^ (Zdigits2 m - 1)) by (apply Z.pow_le_mono_r; lia). lia.
Qed.

Lemma Zdigits2_ge (m d : Z) : 0 < m -> 2 ^ (d - 1) <= m -> d <= Zdigits2 m.
Proof.
  intros Hm Hlo. destruct (Zdigits2_bounds m Hm) as (Hd & _ & Hhi).
  destruct (Z.le_gt_cases d (Zdigits2 m)) as [?|Hgt]; [assumption|].
  assert (2 ^ Zdigits2 m <= 2 ^ (d - 1)) by (apply Z.pow_le_mono_r; lia). lia.
Qed.

Lemma Zdigits2_mul_pow2 (m k : Z) :
  0 < m -> 0 <= k -> Zdigits2 (m * 2 ^ k) = Zdigits2 m + k.
Proof.
  intros Hm Hk. destruct (Zdigits2_bounds m Hm) as (Hd & Hlo & Hhi).
  assert (0 < 2 ^ k) by (apply Z.pow_pos_nonneg; lia).
  apply Zdigits2_unique; [nia|].
  replace (Zdigits2 m + k - 1) with ((Zdigits2 m - 1) + k) by lia.
  rewrite !Z.pow_add_r by lia. nia.
Qed.

Lemma Zdigits2_div_pow2 (m k : Z) :
  0 < m -> 0 <= k < Zdigits2 m ->
  0 < m / 2 ^ k /\ Zdigits2 (m / 2 ^ k) = Zdigits2 m - k.
Proof.
  intros Hm Hk. destruct (Zdigits2_bounds m Hm) as (Hd & Hlo & Hhi).
  assert (H2k : 0 < 2 ^ k) by (apply Z.pow_pos_nonneg; lia).
  assert (Hlo' : 2 ^ (Zdigits2 m - k - 1) <= m / 2 ^ k).
  { apply Z.div_le_lower_bound; [exact H2k|].
    rewrite <- Z.pow_add_r by lia.
    replace (k + (Zdigits2 m - k - 1)) with (Zdigits2 m - 1) by lia.
    exact Hlo. }
  assert (Hhi' : m / 2 ^ k < 2 ^ (Zdigits2 m - k)).
  { apply Z.div_lt_upper_bound; [exact H2k|].
    rewrite <- Z.pow_add_r by lia.
    replace (k + (Zdigits2 m - k)) with (Zdigits2 m) by lia. exact Hhi. }
  assert (0 < 2 ^ (Zdigits2 m - k - 1)) by (apply Z.pow_pos_nonneg; lia).
  split; [lia|]. apply Zdigits2_unique; [lia|]. split; assumption.
Qed.

Lemma Zdigits2_mono (a b : Z) : 0 < a -> a <= b -> Zdigits2 a <= Zdigits2 b.
Proof.
  intros Ha Hab. destruct (Zdigits2_bounds a Ha) as (_ & Hlo & _).
  apply Zdigits2_ge; lia.
Qed.

Lemma Zdigits2_succ (m : Z) : 0 < m -> Zdigits2 (m + 1) <= Zdigits2 m + 1.
Proof.
  intros Hm. destruct (Zdigits2_bounds m Hm) as (Hd & _ & Hhi).
  apply Zdigits2_le; [lia|]. rewrite Z.pow_add_r by lia. lia.
Qed.

(** shifts *)
Lemma shr_1_m (mrs : shr_record) :
  0 <= shr_m mrs -> shr_m (shr_1 mrs) = shr_m mrs / 2.
Proof.
  destruct mrs as [m r s]. cbn [shr_m]. intros Hm.
  destruct m as [|[p|p|]|p]; cbn [shr_1 shr_m]; try lia; try reflexivity.
  - rewrite Pos2Z.inj_xI. apply Z.div_unique with 1; lia.
  - change (Zpos p~0) with (2 * Zpos p). apply Z.div_unique with 0; lia.
Qed.

Lemma iter_pos_shr_m (p : positive) (mrs : shr_record) :
  0 <= shr_m mrs ->
  shr_m (SpecFloat.iter_pos shr_1 p mrs) = shr_m mrs / 2 ^ Zpos p.
Proof.
  revert mrs.
  induction p as [p IH|p IH|]; intros mrs Hm; cbn [SpecFloat.iter_pos].
  - assert (H1 : 0 <= shr_m (shr_1 mrs)).
    { rewrite shr_1_m by exact Hm. apply Z.div_pos; lia. }
    assert (H2 : 0 <= shr_m (SpecFloat.iter_pos shr_1 p (shr_1 mrs))).
    { rewrite IH by exact H1. apply Z.div_pos; [exact H1|].
      apply Z.pow_pos_nonneg; lia. }
    rewrite IH by exact H2. rewrite IH by exact H1. rewrite shr_1_m by exact Hm.
    assert (0 < 2 ^ Zpos p) by (apply Z.pow_pos_nonneg; lia).
    rewrite !Z.div_div by lia. f_equal.
    rewrite Pos2Z.inj_xI.
    replace (2 * Zpos p + 1) with (1 + Zpos p + Zpos p) by lia.
    rewrite !Z.pow_add_r by lia. lia.
  - assert (H2 : 0 <= shr_m (SpecFloat.iter_pos shr_1 p mrs)).
    { rewrite IH by exact Hm. apply Z.div_pos; [exact Hm|].
      apply Z.pow_pos_nonneg; lia. }
    rewrite IH by exact H2. rewrite IH by exact Hm.
    assert (0 < 2 ^ Zpos p) by (apply Z.pow_pos_nonneg; lia).
    rewrite !Z.div_div by lia. f_equal.
    change (Zpos p~0) with (2 * Zpos p).
    replace (2 * Zpos p) with (Zpos p + Zpos p) by lia.
    rewrite !Z.pow_add_r by lia. lia.
  - rewrite shr_1_m by exact Hm. reflexivity.
Qed.

(** The bit that a shift leaves in the rounding position. *)
Lemma shr_1_r (mrs : shr_record) :
  0 <= shr_m mrs -> shr_r (shr_1 mrs) = Z.odd (shr_m mrs).
Proof.
  destruct mrs as [m r s]. cbn [shr_m]. intros Hm.
  destruct m as [|[q|q|]|q]; cbn [shr_1 shr_r]; try lia; reflexivity.
Qed.

Lemma iter_pos_shr_r (p : positive) (mrs : shr_record) :
  0 <= shr_m mrs ->
  shr_r (SpecFloat.iter_pos shr_1 p mrs) = Z.testbit (shr_m mrs) (Zpos p - 1).
Proof.
  revert mrs.
  induction p as [p IH|p IH|]; intros mrs Hm; cbn [SpecFloat.iter_pos].
  - assert (H1 : 0 <= shr_m (shr_1 mrs)).
    { rewrite shr_1_m by exact Hm. apply Z.div_pos; lia. }
    assert (H2 : 0 <= shr_m (SpecFloat.iter_pos shr_1 p (shr_1 mrs))).
    { rewrite iter_pos_shr_m by exact H1. apply Z.div_pos; [exact H1|].
      apply Z.pow_pos_nonneg; lia. }
    rewrite IH by exact H2. rewrite iter_pos_shr_m by exact H1.
    rewrite shr_1_m by exact Hm.
    rewrite Z.div_pow2_bits by lia.
    change 2 with (2 ^ 1) at 1. rewrite Z.div_pow2_bits by lia.
    f_equal. lia.
  - assert (H2 : 0 <= shr_m (SpecFloat.iter_pos shr_1 p mrs)).
    { rewrite iter_pos_shr_m by exact Hm. apply Z.div_pos; [exact Hm|].
      apply Z.pow_pos_nonneg; lia. }
    rewrite IH by exact H2. rewrite iter_pos_shr_m by exact Hm.
    rewrite Z.div_pow2_bits by lia. f_equal. lia.
  - rewrite shr_1_r by exact Hm. symmetry. apply Z.bit0_odd.
Qed.

Lemma fexp_eq (e : Z) : fexp prec emax e = Z.max (e - 53) (-1074).
Proof. reflexivity. Qed.

Lemma shr_record_of_loc_m (m : Z) (l : location) :
  shr_m (shr_record_of_loc m l) = m.
Proof. destruct l as [|[]]; reflexivity. Qed.

Lemma shr_fexp_spec (m e : Z) (l : location) :
  0 < m -> -1074 < Zdigits2 m + e ->
  0 < shr_m (fst (shr_fexp prec emax m e l)) /\
  Zdigits2 (shr_m (fst (shr_fexp prec emax m e l)))
  + snd (shr_fexp prec emax m e l) = Zdigits2 m + e /\
  snd (shr_fexp prec emax m e l) = Z.max e (fexp prec emax (Zdigits2 m + e)).
Proof.
  intros Hm Ho. destruct (Zdigits2_bounds m Hm) as (Hd & _).
  unfold shr_fexp, shr. rewrite fexp_eq.
  destruct (Z.max (Zdigits2 m + e - 53) (-1074) - e) as [|p|p] eqn:Hn;
    cbn [fst snd].
  - rewrite shr_record_of_loc_m. lia.
  - rewrite iter_pos_shr_m by (rewrite shr_record_of_loc_m; lia).
    rewrite shr_record_of_loc_m.
    destruct (Zdigits2_div_pow2 m (Zpos p) Hm) as [Hq Hdq]; [lia|].
    rewrite Hdq. lia.
  - rewrite shr_record_of_loc_m. lia.
Qed.

Lemma round_nearest_even_bounds (m : Z) (l : location) :
  m <= round_nearest_even m l <= m + 1.
Proof.
  destruct l as [|[]]; cbn [round_nearest_even]; try lia.
  destruct (Z.even m); lia.
Qed.

(** Rounding a positive number that is not below the least subnormal:
    the result is positive, its order of magnitude is that of the number
    or the next, and its exponent is the one the format gives, unless the
    given exponent is larger. *)
Lemma binary_round_aux_pos (sx : bool) (mx ex : Z) (lx : location) :
  0 < mx -> -1074 < Zdigits2 mx + ex ->
  exists (m : positive) (e : Z),
    binary_round_aux prec emax sx mx ex lx
    = (if e <=? emax - prec then S754_finite sx m e else S754_infinity sx) /\
    Zdigits2 mx + ex <= Zpos (digits2_pos m) + e <= Zdigits2 mx + ex + 1 /\
    e = Z.max ex (fexp prec emax (Zpos (digits2_pos m) + e)).
Proof.
  intros Hm Ho. unfold binary_round_aux.
  destruct (shr_fexp_spec mx ex lx Hm Ho) as (H1 & H2 & H3).
  destruct (shr_fexp prec emax mx ex lx) as [mrs' e'] eqn:E1.
  cbn [fst snd] in H1, H2, H3.
  pose proof (round_nearest_even_bounds (shr_m mrs') (loc_of_shr_record mrs'))
    as Hr.
  set (m2 := round_nearest_even (shr_m mrs') (loc_of_shr_record mrs')) in *.
  assert (Hm2 : 0 < m2) by lia.
  assert (Hd2 : Zdigits2 (shr_m mrs') <= Zdigits2 m2
                <= Zdigits2 (shr_m mrs') + 1).
  { split; [apply Zdigits2_mono; lia|].
    transitivity (Zdigits2 (shr_m mrs' + 1)); [apply Zdigits2_mono; lia|].
    apply Zdigits2_succ; lia. }
  destruct (shr_fexp_spec m2 e' loc_Exact Hm2 ltac:(lia)) as (H4 & H5 & H6).
  destruct (shr_fexp prec emax m2 e' loc_Exact) as [mrs'' e''] eqn:E2.
  cbn [fst snd] in H4, H5, H6.
  destruct (shr_m mrs'') as [|m|m] eqn:Em; try lia.
  exists m, e''. split; [reflexivity|].
  cbn [Zdigits2] in H5. rewrite fexp_eq in *. lia.
Qed.

Lemma pos_iter_xO (m d : positive) :
  Zpos (Pos.iter xO m d) = Zpos m * 2 ^ Zpos d.
Proof.
  induction d as [|d IH] using Pos.peano_ind.
  - simpl. lia.
  - rewrite Pos.iter_succ, Pos2Z.inj_succ, Z.pow_succ_r by lia.
    change (Zpos (Pos.iter xO m d)~0) with (2 * Zpos (Pos.iter xO m d)).
    rewrite IH. lia.
Qed.

Lemma shl_align_spec (mx : positive) (ex ex' : Z) :
  snd (shl_align mx ex ex') = Z.min ex ex' /\
  Zpos (fst (shl_align mx ex ex'))
  = Zpos mx * 2 ^ (ex - Z.min ex ex').
Proof.
  unfold shl_align. destruct (ex' - ex) as [|d|d] eqn:Hd; cbn [fst snd].
  - replace (ex - Z.min ex ex') with 0 by lia. simpl. lia.
  - replace (ex - Z.min ex ex') with 0 by lia. simpl. lia.
  - rewrite pos_iter_xO. replace (ex - Z.min ex ex') with (Zpos d) by lia. lia.
Qed.


(** Rounding a positive integer mantissa at an exponent of the format. *)
Lemma binary_round_pos (sx : bool) (mx : positive) (ex : Z) :
  -1074 < Zpos (digits2_pos mx) + ex ->
  exists (m : positive) (e : Z),
    binary_round prec emax sx mx ex
    = (if e <=? emax - prec then S754_finite sx m e else S754_infinity sx) /\
    Zpos (digits2_pos mx) + ex <= Zpos (digits2_pos m) + e
    <= Zpos (digits2_pos mx) + ex + 1 /\
    e = fexp prec emax (Zpos (digits2_pos m) + e).
Proof.
  intros Ho. unfold binary_round.
  destruct (shl_align_spec mx ex (fexp prec emax (Zpos (digits2_pos mx) + ex)))
    as [He Hm].
  destruct (shl_align mx ex _) as [mz ez]. cbn [fst snd] in He, Hm.
  assert (Hdz : Zdigits2 (Zpos mz) + ez = Zpos (digits2_pos mx) + ex).
  { rewrite Hm, <- He, Zdigits2_mul_pow2 by lia. cbn [Zdigits2]. lia. }
  destruct (binary_round_aux_pos sx (Zpos mz) ez loc_Exact)
    as (m & e & Hr & Hb & Hc);
    [lia | lia |].
  exists m, e. split; [exact Hr|]. split; [lia|].
  rewrite fexp_eq in *. lia.
Qed.





(** *** The doubles of the table *)

Section DoubleArithmetic.
Import PrimFloat Binary64.





Lemma SFltb_zero_pos (m : positive) (e : Z) :
  SFltb (S754_zero false)
        (if e <=? emax - prec then S754_finite false m e
         else S754_infinity false) = true.
Proof. destruct (e <=? emax - prec); reflexivity. Qed.



Lemma SFltb_finite_infinity (m : positive) (e : Z) :
  SFltb (S754_finite false m e) (S754_infinity false) = true.
Proof. reflexivity. Qed.




(** From 2^1024 - 2^970 on, an [int] is too large for a double: it is at
    least half way from the largest double to 2^1024, and rounds to
    2^1024. *)
Lemma b64_of_int_overflow (n : Z) :
  2 ^ 1024 - 2 ^ 970 <= n -> b64_of_int n = Raise OverflowError.
Proof.
  intros Hn. assert (HA : 0 < 2 ^ 970) by reflexivity.
  assert (H1024 : 2 ^ 1024 = 18014398509481984 * 2 ^ 970) by reflexivity.
  assert (H971 : 2 ^ 971 = 2 * 2 ^ 970) by reflexivity.
  assert (H1023 : 2 ^ 1023 = 9007199254740992 * 2 ^ 970) by reflexivity.
  destruct n as [|p|p]; try lia. unfold b64_of_int.
  cbn [binary_normalize].
  destruct (Z.le_gt_cases (2 ^ 1024) (Zpos p)) as [Hbig|Hsmall].
  - assert (Hd : 1025 <= Zpos (digits2_pos p)).
    { apply (Zdigits2_ge (Zpos p)); [lia | exact Hbig]. }
    destruct (binary_round_pos false p 0) as (m & e & Hr & Hb & Hc); [lia|].
    rewrite Hr. rewrite fexp_eq in Hc.
    destruct (Z.leb_spec e (emax - prec)) as [Hle|_].
    + change (emax - prec) with 971 in Hle. lia.
    + reflexivity.
  - assert (Hd : Zpos (digits2_pos p) = 1024).
    { apply (Zdigits2_unique (Zpos p)); [lia|].
      change (1024 - 1) with 1023. lia. }
    assert (Hround : binary_round prec emax false p 0 = S754_infinity false).
    { unfold binary_round. rewrite Hd.
      change (shl_align p 0 (fexp prec emax (1024 + 0))) with (p, 0).
      unfold binary_round_aux, shr_fexp. cbn [Zdigits2]. rewrite Hd.
      change (fexp prec emax (1024 + 0) - 0) with (Zpos 971).
      unfold shr at 1.
      set (mrs := SpecFloat.iter_pos shr_1 971
                    (shr_record_of_loc (Zpos p) loc_Exact)).
      assert (Hm : shr_m mrs = 9007199254740991).
      { unfold mrs. rewrite iter_pos_shr_m by (cbn; lia).
        cbn [shr_record_of_loc shr_m]. rewrite H971.
        symmetry. apply Z.le_antisymm.
        - apply Z.div_le_lower_bound; lia.
        - apply Z.lt_succ_r. apply Z.div_lt_upper_bound; lia. }
      assert (Hr : shr_r mrs = true).
      { unfold mrs. rewrite iter_pos_shr_r by (cbn; lia).
        cbn [shr_record_of_loc shr_m]. change (Zpos 971 - 1) with (0 + 970).
        rewrite <- Z.div_pow2_bits by lia. rewrite Z.bit0_odd.
        replace (Zpos p / 2 ^ 970) with 18014398509481983; [reflexivity|].
        apply Z.le_antisymm.
        - apply Z.div_le_lower_bound; lia.
        - apply Z.lt_succ_r. apply Z.div_lt_upper_bound; lia. }
      destruct mrs as [m r s]. cbn [shr_m shr_r] in Hm, Hr. subst m r.
      destruct s; vm_compute; reflexivity. }
    rewrite Hround. reflexivity.
Qed.


End DoubleArithmetic.

Section Binary64Table.
Import PrimFloat Binary64.
Variable tan : float -> result float.
Variable atan : float -> float.


(** From n + 1 = 2^1024 - 2^970 on, the conversion of n + 1 raises and
    the table is not built. *)
Lemma precompute_R_too_large (n : Z) :
  2 ^ 1024 - 2 ^ 970 <= n + 1 ->
  @precompute_R _ (binary64 tan atan) n = Raise OverflowError.
Proof.
  intros Hbig. assert (H0 : 0 < 2 ^ 1024 - 2 ^ 970) by reflexivity.
  unfold precompute_R.
  destruct (Z.leb_spec n 0) as [?|_]; [lia|].
  cbn [of_int binary64]. rewrite b64_of_int_overflow by exact Hbig.
  reflexivity.
Qed.


(** X17: from n = 2^1024 - 2^970 - 1 on, [d_angle_fast] and
    [list_solutions] raise [OverflowError], whatever the libm and the
    tolerance: n + 1 is too large for a double, and the table is not
    built. *)
Theorem engine_too_large (n : Z) (tol : float) :
  2 ^ 1024 - 2 ^ 970 - 1 <= n ->
  @d_angle_fast _ (binary64 tan atan) n tol = Raise OverflowError /\
  @list_solutions _ (binary64 tan atan) n tol = Raise OverflowError.
Proof.
  intros Hbig. assert (H0 : 0 < 2 ^ 1024 - 2 ^ 970 - 1) by reflexivity.
  unfold d_angle_fast, list_solutions.
  destruct (Z.leb_spec n 0) as [?|_]; [lia|].
  rewrite precompute_R_too_large by lia. split; reflexivity.
Qed.
End Binary64Table.


(** A [tan] out of range breaks the table: with one that returns [SQRT3],
    the first denominator is zero. *)
Example precompute_R_zero_denominator :
  @precompute_R _ (Binary64.binary64 (fun _ => Ok (PrimFloat.sqrt 3))
                                    Binary64.sample_atan) 1
  = Raise ZeroDivisionError.
Proof. vm_compute. reflexivity. Qed.



Lemma engine_too_large_witness :
  2 ^ 1024 - 2 ^ 970 - 1 <= 2 ^ 1024 - 2 ^ 970 - 1 /\
  @d_angle_fast _ Binary64.sample (2 ^ 1024 - 2 ^ 970 - 1)
     Binary64.tol_default
  = Raise OverflowError /\
  @list_solutions _ Binary64.sample (2 ^ 1024 - 2 ^ 970 - 1)
     Binary64.tol_default
  = Raise OverflowError.
Proof.
  assert (Hbig : 2 ^ 1024 - 2 ^ 970 - 1 <= 2 ^ 1024 - 2 ^ 970 - 1)
    by reflexivity.
  split; [exact Hbig|].
  exact (engine_too_large Binary64.sample_tan Binary64.sample_atan
           (2 ^ 1024 - 2 ^ 970 - 1) Binary64.tol_default Hbig).
Defined.

(** ** The rule, on every integer *)

(** X8: [a_rule n] is 0 exactly when n is even, for every integer n (Python's
    [%] gives a result in 0 .. 9 also for a negative n); an odd n has an
    odd value. *)
Theorem a_rule_zero_iff_even (n : Z) :
  (a_rule n = 0 <-> Z.even n = true) /\ Z.odd (a_rule n) = Z.odd n.
Proof.
  unfold a_rule. rewrite Zeven_mod.
  pose proof (Z.div_mod n 2 ltac:(lia)) as Hdiv.
  pose proof (Z.mod_pos_bound n 2 ltac:(lia)) as Hbound.
  destruct (Z.eqb_spec (n mod 2) 0) as [Heven|Hodd].
  - split; [tauto|]. rewrite (Zodd_mod n), Heven. reflexivity.
  - assert (Hn : n = 2 * (n / 2) + 1) by lia.
    split.
    + split; [|discriminate]. destruct (n mod 10 =? 9); lia.
    + rewrite (Zodd_mod n).
      replace (n mod 2) with 1 by lia. simpl.
      destruct (n mod 10 =? 9).
      * replace (3 * n - 2 + 12) with (1 + 2 * (3 * (n / 2) + 6)) by lia.
        rewrite Z.odd_add_mul_2. reflexivity.
      * replace (3 * n - 2 + 0) with (1 + 2 * (3 * (n / 2))) by lia.
        rewrite Z.odd_add_mul_2. reflexivity.
Qed.

(** ** The b-file among the other files *)


(** ** The listing is already in order *)

#[local] Instance triple_le_trans : Transitive triple_le.
Proof. intros [[a b] c] [[d e] f] [[g h] i]. unfold triple_le. simpl. lia. Qed.

#[local] Instance triple_le_total : Total triple_le.
Proof. intros [[a b] c] [[d e] f]. unfold triple_le. simpl. lia. Qed.

#[local] Instance triple_le_antisymm : AntiSymm (=) triple_le.
Proof.
  intros [[a b] c] [[d e] f]. unfold triple_le. simpl. intros H1 H2.
  assert (a = d /\ b = e /\ c = f) as (-> & -> & ->) by lia. reflexivity.
Qed.

Lemma sorted_pairs_sorted_triples (l : list (Z * Z * Z)) :
  StronglySorted lex_lt (pair_of <$> l) -> StronglySorted triple_le l.
Proof.
  induction l as [|t l IH]; intros Hs; [constructor|].
  rewrite fmap_cons in Hs. apply StronglySorted_inv in Hs as [Hs Hall].
  constructor; [apply IH, Hs|].
  rewrite Forall_fmap in Hall. eapply Forall_impl; [exact Hall|].
  intros [[a b] c]. destruct t as [[d e] f].
  unfold lex_lt, pair_of, triple_le. simpl. lia.
Qed.

Section SortedListing.
Context {F : Type} `{PyFloat F}.

Lemma sorted_listing (n : Z) (tol : F) (sols : list (Z * Z * Z)) :
  list_solutions n tol = Ok sols ->
  StronglySorted triple_le sols /\ sort_triples sols = sols.
Proof.
  intros Hrun.
  destruct (list_solutions_table n tol sols Hrun) as (theta & R & Hpre).
  destruct (list_solutions_inv n tol theta R sols Hpre Hrun)
    as (_ & Hsort & _).
  apply sorted_pairs_sorted_triples in Hsort.
  split; [exact Hsort|].
  apply (StronglySorted_unique triple_le); [| exact Hsort |].
  - apply (StronglySorted_merge_sort triple_le).
  - apply merge_sort_Permutation.
Qed.

(** X3: the triples come out of [list_solutions] in the order that
    [sols.sort()] gives, the order of Python on tuples: the sort in
    [main] changes nothing. *)
Theorem list_solutions_sorted (n : Z) (tol : F) (sols : list (Z * Z * Z)) :
  list_solutions n tol = Ok sols ->
  StronglySorted triple_le sols /\ sort_triples sols = sols.
Proof. apply sorted_listing. Qed.
End SortedListing.

Lemma list_solutions_sorted_witness :
  @list_solutions _ Binary64.sample 3 Binary64.tol_default
  = Ok [(1, 2, 3); (1, 3, 2); (2, 1, 3); (2, 2, 2); (2, 3, 1); (3, 1, 2);
        (3, 2, 1)] /\
  StronglySorted triple_le
    [(1, 2, 3); (1, 3, 2); (2, 1, 3); (2, 2, 2); (2, 3, 1); (3, 1, 2);
     (3, 2, 1)] /\
  sort_triples [(1, 2, 3); (1, 3, 2); (2, 1, 3); (2, 2, 2); (2, 3, 1);
                (3, 1, 2); (3, 2, 1)]
  = [(1, 2, 3); (1, 3, 2); (2, 1, 3); (2, 2, 2); (2, 3, 1); (3, 1, 2);
     (3, 2, 1)].
Proof.
  assert (Hrun : @list_solutions _ Binary64.sample 3 Binary64.tol_default
                 = Ok [(1, 2, 3); (1, 3, 2); (2, 1, 3); (2, 2, 2); (2, 3, 1);
                       (3, 1, 2); (3, 2, 1)])
    by (vm_compute; reflexivity).
  split; [exact Hrun|].
  exact (@list_solutions_sorted _ Binary64.sample 3 Binary64.tol_default _ Hrun).
Defined.

(** ** Runs of the two main functions *)

Lemma world_eta (w : world) : World (stdout w) (disk w) = w.
Proof. destruct w. reflexivity. Qed.

Lemma io_bind_Ok {A B : Type} (m : io A) (f : A -> io B) (w w' : world)
      (a : A) :
  m w = (w', Ok a) -> (m ≫= f) w = f a w'.
Proof. intros Hm. unfold mbind, io_bind. rewrite Hm. reflexivity. Qed.

Lemma io_bind_Raise {A B : Type} (m : io A) (f : A -> io B) (w w' : world)
      (e : exn) :
  m w = (w', Raise e) -> (m ≫= f) w = (w', Raise e).
Proof. intros Hm. unfold mbind, io_bind. rewrite Hm. reflexivity. Qed.

(** Printing a list, one element a line. *)
Lemma io_print_each {A : Type} (body : A -> unit -> io unit)
      (f : A -> string) (l : list A) (w : world) :
  (forall x u, body x u = print (f x)) ->
  io_for_each l body tt w = (World (stdout w ++ (f <$> l)) (disk w), Ok tt).
Proof.
  intros Hbody. revert w. induction l as [|x l IH]; intros w.
  - simpl. rewrite app_nil_r, world_eta. reflexivity.
  - cbn [io_for_each]. rewrite Hbody.
    rewrite (io_bind_Ok _ _ w _ tt eq_refl), IH. simpl.
    rewrite <- app_assoc. reflexivity.
Qed.

Lemma when_print (c : bool) (line : string) (w : world) :
  when c (print line) w
  = (World (stdout w ++ (if c then [line] else [])) (disk w), Ok tt).
Proof.
  destruct c; simpl; [reflexivity|].
  rewrite app_nil_r, world_eta. reflexivity.
Qed.

Lemma csv_block (c : bool) (vals : list Z) (w : world) :
  when c (io_for_each (enumerate vals 1)
            (fun '(n, d) (_ : unit) => print (str n +:+ "," +:+ str d)) tt) w
  = (World (stdout w ++
            (if c
             then (fun '(n, d) => str n +:+ "," +:+ str d) <$> enumerate vals 1
             else []))
           (disk w), Ok tt).
Proof.
  destruct c; simpl.
  - apply io_print_each. intros [n d] u. reflexivity.
  - rewrite app_nil_r, world_eta. reflexivity.
Qed.

Lemma oeis_block (c : bool) (vals : list Z) (w : world) :
  when c (print "OEIS data (offset 1):";;
          print (String.concat ", " (str <$> vals))) w
  = (World (stdout w ++
            (if c
             then ["OEIS data (offset 1):"; String.concat ", " (str <$> vals)]
             else []))
           (disk w), Ok tt).
Proof.
  destruct c; simpl.
  - unfold mbind, io_bind, print. simpl. rewrite <- app_assoc. reflexivity.
  - rewrite app_nil_r, world_eta. reflexivity.
Qed.


Section Runs.
Context {F : Type} `{PyFloat F} `{Platform}.
Variable show_float : F -> string.

(** The table loop of [main], when no count raises: the values are those
    of [main_table] and there is one row a value, unless [--no-table]. *)
Lemma io_table_loop (a : args F) (xs : list Z) (acc vals : list Z)
      (w : world) :
  for_each xs (fun n vals => d ← d_angle_fast n (tol a); Ok (vals ++ [d])) acc
  = Ok vals ->
  exists ds,
    vals = acc ++ ds /\
    io_for_each xs
      (fun n vals =>
         d ← pure (d_angle_fast n (tol a));
         let vals := vals ++ [d] in
         when (negb (no_table a))
              (let r := a_rule n in print (table_row n d r));;
         mret vals)
      acc w
    = (World (stdout w ++
              (if no_table a then []
               else zip_with (fun n d => table_row n d (a_rule n)) xs ds))
             (disk w), Ok vals).
Proof.
  revert acc w. induction xs as [|n xs IH]; intros acc w Hrun.
  - injection Hrun as <-. exists []. rewrite !app_nil_r.
    split; [reflexivity|]. simpl.
    destruct (no_table a); simpl; rewrite app_nil_r, world_eta; reflexivity.
  - cbn [for_each] in Hrun. apply bind_Ok in Hrun as (acc' & Hd & Hrun).
    apply bind_Ok in Hd as (d & Hd & Hacc). injection Hacc as <-.
    destruct (IH (acc ++ [d])
                 (World (stdout w ++
                         (if no_table a then []
                          else [table_row n d (a_rule n)])) (disk w)) Hrun)
      as (ds & -> & Hio).
    exists (d :: ds). split; [rewrite <- app_assoc; reflexivity|].
    cbn [io_for_each].
    erewrite io_bind_Ok; [rewrite Hio|].
    + simpl. f_equal. f_equal. rewrite <- app_assoc.
      destruct (no_table a); reflexivity.
    + erewrite io_bind_Ok; [|unfold pure; rewrite Hd; reflexivity].
      cbv zeta. erewrite io_bind_Ok; [reflexivity|].
      rewrite when_print. destruct (no_table a); reflexivity.
Qed.
(** The table loop when a count raises: the rows printed before stay, the
    files are as they were. *)
Lemma io_table_loop_Raise (a : args F) (xs : list Z) (acc : list Z)
      (w : world) (e : exn) :
  for_each xs (fun n vals => d ← d_angle_fast n (tol a); Ok (vals ++ [d])) acc
  = Raise e ->
  exists out,
    io_for_each xs
      (fun n vals =>
         d ← pure (d_angle_fast n (tol a));
         let vals := vals ++ [d] in
         when (negb (no_table a))
              (let r := a_rule n in print (table_row n d r));;
         mret vals)
      acc w
    = (World (stdout w ++ out) (disk w), Raise e).
Proof.
  revert acc w. induction xs as [|n xs IH]; intros acc w Hrun;
    [discriminate Hrun|].
  cbn [for_each] in Hrun. cbn [io_for_each].
  destruct (d_angle_fast n (tol a)) as [d|e'] eqn:Hd.
  - simpl in Hrun.
    destruct (IH (acc ++ [d])
                 (World (stdout w ++
                         (if no_table a then []
                          else [table_row n d (a_rule n)])) (disk w)) Hrun)
      as (out & Hio).
    eexists. erewrite io_bind_Ok; [rewrite Hio|].
    + simpl. rewrite <- app_assoc. reflexivity.
    + erewrite io_bind_Ok; [|reflexivity].
      cbv zeta. erewrite io_bind_Ok; [reflexivity|].
      rewrite when_print. destruct (no_table a); reflexivity.
  - simpl in Hrun. injection Hrun as <-. exists [].
    erewrite io_bind_Raise; [reflexivity|].
    erewrite io_bind_Raise; [|reflexivity].
    rewrite app_nil_r, world_eta. reflexivity.
Qed.





(** X13: a run of [main] in which the engine raises, in the table or under
    [--list-triples]: the run ends with that exception, what it printed
    stays, and no file is written, also under [--bfile]. *)
Theorem main_failure (a : args F) (w : world) (e : exn) :
  main_table (max_n a) (tol a) = Raise e \/
  (exists vals N,
     main_table (max_n a) (tol a) = Ok vals /\
     list_triples a = Some N /\
     list_solutions N (tol a) = Raise e) ->
  exists out,
    main show_float a w = (World (stdout w ++ out) (disk w), Raise e).
Proof.
  intros [Htable|(vals & N & Htable & HN & Hsols)]; unfold main.
  - destruct (io_table_loop_Raise a (range 1 (max_n a + 1)) []
                (World (stdout w ++
                        (if negb (no_table a)
                         then ["n :  d_angle_fast  |  a_rule   check"]
                         else []))
                       (disk w)) e Htable) as (out & Hloop).
    eexists. erewrite io_bind_Ok; [|apply when_print].
    erewrite io_bind_Raise; [|exact Hloop].
    cbn [stdout disk]. rewrite <- app_assoc. reflexivity.
  - destruct (io_table_loop a (range 1 (max_n a + 1)) [] vals
                (World (stdout w ++
                        (if negb (no_table a)
                         then ["n :  d_angle_fast  |  a_rule   check"]
                         else []))
                       (disk w)) Htable) as (ds & Hds & Hloop).
    eexists. erewrite io_bind_Ok; [|apply when_print].
    erewrite io_bind_Ok; [|exact Hloop].
    erewrite io_bind_Ok; [|apply csv_block].
    erewrite io_bind_Ok; [|apply oeis_block].
    erewrite io_bind_Raise.
    2:{ rewrite HN. unfold main_list_triples.
        erewrite io_bind_Raise; [reflexivity|].
        unfold pure. rewrite Hsols. reflexivity. }
    cbn [stdout disk]. rewrite <- !app_assoc. reflexivity.
Qed.

(** The loop of [test_rule.py] does not print: it is the loop of
    [test_rule_main]. *)
Lemma io_for_each_pure {S : Type} (xs : list Z) (body : Z -> S -> io S)
      (body' : Z -> S -> result S) (acc : S) (w : world) :
  (forall n s w, body n s w = (w, body' n s)) ->
  io_for_each xs body acc w = (w, for_each xs body' acc).
Proof.
  intros Hbody. revert acc. induction xs as [|n xs IH]; intros acc.
  - reflexivity.
  - cbn [io_for_each for_each]. unfold mbind at 1, io_bind.
    rewrite Hbody. destruct (body' n acc) as [s|e]; simpl; [apply IH|].
    reflexivity.
Qed.

Lemma test_rule_io_loop (w : world) :
  io_for_each (range 1 201)
    (fun n bad =>
       d ← pure (d_angle_fast n f_tol);
       let r := a_rule n in
       if negb (d =? r) then mret (bad ++ [(n, d, r)]) else mret bad)
    [] w
  = (w, for_each (range 1 201)
          (fun n bad =>
             d ← d_angle_fast n f_tol;
             let r := a_rule n in
             if negb (d =? r) then Ok (bad ++ [(n, d, r)]) else Ok bad)
          []).
Proof.
  apply io_for_each_pure. intros n s w0.
  unfold mbind at 1, io_bind, pure.
  destruct (d_angle_fast n f_tol) as [d|e]; simpl; [|reflexivity].
  destruct (negb (d =? a_rule n)); reflexivity.
Qed.

(** The exit of [test_rule.py] with its printing is the exit without. *)
Lemma test_rule_io_status (w : world) : (test_rule_io w).2 = test_rule_main.
Proof.
  unfold test_rule_io, test_rule_main.
  unfold mbind at 1, io_bind. rewrite test_rule_io_loop.
  destruct (for_each _ _ _) as [[|b bad]|e]; simpl; try reflexivity.
  erewrite io_bind_Ok;
    [|apply (io_print_each _ diff_line); reflexivity].
  reflexivity.
Qed.

(** The list kept by the loop of [test_rule.py], while the counts return:
    the mismatches met so far, in the order of n. *)
Lemma test_rule_loop_mismatches (xs : list Z) (acc : list (Z * Z * Z)) :
  (forall n, n ∈ xs -> exists d, d_angle_fast n f_tol = Ok d) ->
  for_each xs
    (fun n bad =>
       d ← d_angle_fast n f_tol;
       let r := a_rule n in
       if negb (d =? r) then Ok (bad ++ [(n, d, r)]) else Ok bad)
    acc
  = Ok (acc ++ concat (mismatch <$> xs)).
Proof.
  revert acc. induction xs as [|n xs IH]; intros acc Hall.
  - simpl. rewrite app_nil_r. reflexivity.
  - cbn [for_each]. destruct (Hall n) as [d Hd]; [left|].
    rewrite Hd, bind_ret. cbv zeta.
    rewrite fmap_cons. cbn [concat]. unfold mismatch at 1. rewrite Hd.
    destruct (d =? a_rule n); simpl.
    + apply IH. intros m Hm. apply Hall. right. exact Hm.
    + rewrite IH by (intros m Hm; apply Hall; right; exact Hm).
      rewrite <- app_assoc. reflexivity.
Qed.

(** X15: [test_rule.py], while every count of 1 .. 200 returns: with no
    mismatch it prints its OK line and ends normally; otherwise it prints
    one DIFF line for each n whose count is not the rule, in the order of
    n, and raises [SystemExit].  The files are not touched. *)
Theorem test_rule_io_report (w : world) :
  (forall n, 1 <= n <= 200 -> exists d, d_angle_fast n f_tol = Ok d) ->
  test_rule_io w
  = match concat (mismatch <$> range 1 201) with
    | [] =>
        (World (stdout w ++ ["OK: d_angle_fast(n) == a_rule(n) for n=1..200"])
               (disk w), Ok tt)
    | bad =>
        (World (stdout w ++ (diff_line <$> bad)) (disk w), Raise SystemExit)
    end.
Proof.
  intros Hall. unfold test_rule_io.
  unfold mbind at 1, io_bind. rewrite test_rule_io_loop.
  rewrite test_rule_loop_mismatches
    by (intros n Hn; apply Hall; apply elem_of_range in Hn; lia).
  cbn [app]. destruct (concat _) as [|b bad]; [reflexivity|].
  erewrite io_bind_Ok;
    [|apply (io_print_each _ diff_line); reflexivity].
  reflexivity.
Qed.
End Runs.

(** *** Sample runs of [main] *)

Section RunWitnesses.
#[local] Existing Instance Binary64.sample.
#[local] Existing Instance sample_platform.
Import Binary64.

Lemma main_table_length_witness :
  0 <= 3 /\
  main_table 3 tol_default = Ok [1; 0; 7] /\
  (Z.of_nat (length [1; 0; 7]) = 3 /\
   forall n, 1 <= n <= 3 ->
             exists d, d_angle_fast n tol_default = Ok d /\
                       [1; 0; 7] !! Z.to_nat (n - 1) = Some d).
Proof.
  assert (Hmax : 0 <= 3) by lia.
  assert (Hrun : main_table 3 tol_default = Ok [1; 0; 7])
    by (vm_compute; reflexivity).
  split; [exact Hmax|]. split; [exact Hrun|].
  exact (main_table_length 3 tol_default [1; 0; 7] Hmax Hrun).
Defined.


Lemma main_failure_witness :
  (main_table 0 tol_default = Raise OverflowError \/
   exists vals N,
     main_table 0 tol_default = Ok vals /\
     Some (2 ^ 1024 - 1) = Some N /\
     list_solutions N tol_default = Raise OverflowError) /\
  exists out,
    main (fun _ => "1e-12")
         (Args 0 tol_default false false false (Some (2 ^ 1024 - 1))
               (Some "b.txt"))
         (World [] ∅)
    = (World ([] ++ out) ∅, Raise OverflowError).
Proof.
  assert (Hfail : main_table 0 tol_default = Raise OverflowError \/
                  exists vals N,
                    main_table 0 tol_default = Ok vals /\
                    Some (2 ^ 1024 - 1) = Some N /\
                    list_solutions N tol_default = Raise OverflowError).
  { right. exists [], (2 ^ 1024 - 1). split; [reflexivity|].
    split; [reflexivity|]. vm_compute. reflexivity. }
  split; [exact Hfail|].
  exact (main_failure (fun _ => "1e-12")
           (Args 0 tol_default false false false (Some (2 ^ 1024 - 1))
                 (Some "b.txt"))
           (World [] ∅) OverflowError Hfail).
Defined.
End RunWitnesses.




(** ** The check in exact arithmetic *)

Section ExactCheck.
Import Exact.

Lemma test_rule_io_report_witness :
  (forall n, 1 <= n <= 200 -> exists d, d_angle_fast n f_tol = Ok d) /\
  test_rule_io (World [] ∅)
  = match concat (mismatch <$> range 1 201) with
    | [] =>
        (World ([] ++ ["OK: d_angle_fast(n) == a_rule(n) for n=1..200"]) ∅,
         Ok tt)
    | bad => (World ([] ++ (diff_line <$> bad)) ∅, Raise SystemExit)
    end.
Proof.
  assert (Hall : forall n, 1 <= n <= 200 ->
                           exists d, d_angle_fast n f_tol = Ok d).
  { intros n Hn. apply d_angle_fast_exact_total. lia. }
  split; [exact Hall|].
  exact (test_rule_io_report (World [] ∅) Hall).
Defined.
End ExactCheck.
